(** * Signal-Desktop: message counter, contact merging and account lookup

    A shallow embedding of
    - [ts/util/incrementMessageCounter.ts] (module [MessageCounter]),
    - the [FakeConversationController] of
      [ts/test-electron/updateConversationsWithUuidLookup_test.ts]
      (module [Conversations]),
    - the batch lookup of [updateConversationsWithUuidLookup]
      (module [UuidLookup]),
    - the [accounts] duck with its [checkForAccount] thunk
      (module [Accounts]).

    Stateful code is written in a state-and-exception monad: a JavaScript
    function that reads and writes module variables or objects and that may
    throw becomes a function from the state before the call to an [Outcome]
    and the state after it. *)

From Stdlib Require Import ZArith Ascii String DecimalString DecimalZ.
From stdpp Require Import base option list strings gmap pretty.

(** ** Thrown values and the monad *)

(** Everything thrown in the modelled code is an error object that carries
    a message: the errors of [strictAssert] and of chai's [assert], and
    the rejections of the server. *)
Inductive Error : Type :=
  | mkError (message : string).

Inductive Outcome (A : Type) : Type :=
  | Returned (a : A)
  | Threw (e : Error).
Arguments Returned {A} a.
Arguments Threw {A} e.

Definition M (S A : Type) : Type := S → Outcome A * S.

Definition M_ret {S A} (a : A) : M S A := λ s, (Returned a, s).

Definition M_bind {S A B} (f : A → M S B) (m : M S A) : M S B :=
  λ s, match m s with
       | (Returned a, s') => f a s'
       | (Threw e, s') => (Threw e, s')
       end.

#[global] Instance M_mret S : MRet (M S) := λ A, M_ret.
#[global] Instance M_mbind S : MBind (M S) := λ A B, M_bind.

Definition throw {S A} (e : Error) : M S A := λ s, (Threw e, s).
Definition gets {S A} (f : S → A) : M S A := λ s, (Returned (f s), s).
Definition modify {S} (f : S → S) : M S unit := λ s, (Returned tt, f s).

(** [try { body } catch (error) { handler(error) }]. *)
Definition try_catch {S A} (body : M S A) (handler : Error → M S A) : M S A :=
  λ s, match body s with
       | (Returned a, s') => (Returned a, s')
       | (Threw e, s') => handler e s'
       end.

(** Modelled from the spec: [strictAssert] of [ts/util/assert], which is
    not among the sources. Section 4.1 and section 7 of the specification
    give its contract at the two call sites: the call fails, and the failure
    is fatal to the calling operation, when the asserted condition does not
    hold. The message is the second argument of the call. *)
Definition strictAssert {S} (condition : bool) (message : string) : M S unit :=
  if condition then mret tt else throw (mkError message).

(** ** ts/util/incrementMessageCounter.ts *)

Module MessageCounter.

Local Open Scope Z_scope.

(** A JavaScript number as this module uses it. The counter only ever
    holds integers ([Date.now()], the maximum of an integer column, a
    value plus one), so a number is an integer or [NaN], which
    [Number(...)] produces for text that is not numeric. A number is a
    double: an addition gives the double nearest to the sum
    ([roundToDouble]). The infinities are not modelled. *)
Inductive number : Type :=
  | Num (z : Z)
  | NaN.

(** [number | undefined], the type of [receivedAtCounter] and of the
    result of [Data.getMaxMessageCounter()]. *)
Inductive value : Type :=
  | VUndefined
  | VNumber (n : number).

#[global] Instance number_eq_dec : EqDecision number.
Proof. solve_decision. Defined.
#[global] Instance value_eq_dec : EqDecision value.
Proof. solve_decision. Defined.

(** lodash [isNumber]: [typeof value == 'number'], which holds of [NaN]. *)
Definition isNumber (v : value) : bool :=
  match v with
  | VNumber _ => true
  | VUndefined => false
  end.

(** [ToNumber] on [number | undefined]. *)
Definition ToNumber (v : value) : number :=
  match v with
  | VNumber n => n
  | VUndefined => NaN
  end.

(** [Math.max(a, b)]: [NaN] as soon as one argument converts to [NaN]. *)
Definition Math_max (a b : value) : value :=
  match ToNumber a, ToNumber b with
  | Num x, Num y => VNumber (Num (Z.max x y))
  | _, _ => VNumber NaN
  end.

(** [a === b]; [NaN] is not equal to itself. *)
Definition strictEquals (a b : value) : bool :=
  match a, b with
  | VUndefined, VUndefined => true
  | VNumber (Num x), VNumber (Num y) => x =? y
  | _, _ => false
  end.

(** [a < b] on numbers; every comparison with [NaN] is false. *)
Definition lessThan (a b : value) : bool :=
  match ToNumber a, ToNumber b with
  | Num x, Num y => x <? y
  | _, _ => false
  end.

(** The bound of the integers that a double counts one by one: every
    integer from [-2^53] to [2^53] is a double, and beyond them only every
    second, fourth, ... integer is. *)
Definition twoTo53 : Z := 9007199254740992.

(** The double nearest to an integer, a tie going to the even significand
    (the rounding of IEEE 754 that the language prescribes for [+]): an
    integer of magnitude at most [2^53] is a double; of a larger one, the
    low bits that do not fit the 53 bits of the significand are rounded
    away. *)
Definition roundToDouble (z : Z) : Z :=
  let m := Z.abs z in
  if m <=? twoTo53 then z
  else
    let e := Z.log2 m - 52 in
    let q := m / 2 ^ e in
    let r := m mod 2 ^ e in
    let half := 2 ^ (e - 1) in
    let q' := if (half <? r) || ((r =? half) && Z.odd q) then q + 1 else q in
    Z.sgn z * (q' * 2 ^ e).

(** [a + 1]: the sum, rounded to a double. *)
Definition plusOne (a : value) : value :=
  match ToNumber a with
  | Num x => VNumber (Num (roundToDouble (x + 1)))
  | NaN => VNumber NaN
  end.

Inductive LogLine : Type :=
  | LogInfo (message : string)
  | LogWarn (message : string).

(** The module variable, the [localStorage] item
    ['lastReceivedAtCounter'] ([None] when [getItem] returns [null]), the
    pending call of the debounced writer, and what was logged. *)
Record State : Type := mkState {
  receivedAtCounter : value;
  lastReceivedAtCounter : option string;
  updatePending : bool;
  logged : list LogLine;
}.

Definition set_receivedAtCounter (v : value) (st : State) : State :=
  mkState v (lastReceivedAtCounter st) (updatePending st) (logged st).
Definition localStorage_setItem (s : string) (st : State) : State :=
  mkState (receivedAtCounter st) (Some s) (updatePending st) (logged st).
Definition set_updatePending (b : bool) (st : State) : State :=
  mkState (receivedAtCounter st) (lastReceivedAtCounter st) b (logged st).
Definition window_log (l : LogLine) (st : State) : State :=
  mkState (receivedAtCounter st) (lastReceivedAtCounter st) (updatePending st)
          (logged st ++ [l]).

Definition AlreadyInitialized : Error :=
  mkError "incrementMessageCounter: already initialized".
Definition NotInitialized : Error :=
  mkError "incrementMessageCounter: not initialized".

(** What [initializeMessageCounter] leaves in [receivedAtCounter], as a
    function of the two counters it read. *)
Definition seedOf (dbCounter storedCounter : value) (now : Z) : value :=
  if isNumber dbCounter && isNumber storedCounter then Math_max dbCounter storedCounter
  else if isNumber storedCounter then storedCounter
  else if isNumber dbCounter then dbCounter
  else VNumber (Num now).

Section Counter.

(** The two primitive conversions of the language are left open: what
    [Number] makes of a string, and what [String] makes of a number. *)
Variable StringToNumber : string → number.
Variable NumberToString : number → string.

(** [Number(localStorage.getItem(...))]: [Number(null)] is [0]. *)
Definition Number (item : option string) : value :=
  match item with
  | None => VNumber (Num 0)
  | Some s => VNumber (StringToNumber s)
  end.

(** [String(receivedAtCounter)]. *)
Definition String_ (v : value) : string :=
  match v with
  | VUndefined => "undefined"
  | VNumber n => NumberToString n
  end.

(** The [if] chain of lines 20 to 42, on the two counters read and on
    [Date.now()]. *)
Definition seedCounter (dbCounter storedCounter : value) (now : Z) : M State unit :=
  if isNumber dbCounter && isNumber storedCounter then
    modify (window_log (LogInfo "initializeMessageCounter: picking max of db/stored counters"));;
    modify (set_receivedAtCounter (Math_max dbCounter storedCounter));;
    seeded ← gets receivedAtCounter;
    if negb (strictEquals seeded storedCounter) then
      modify (window_log (LogWarn "initializeMessageCounter: mismatch between db/stored counters"))
    else mret tt
  else if isNumber storedCounter then
    modify (window_log (LogInfo "initializeMessageCounter: picking stored counter"));;
    modify (set_receivedAtCounter storedCounter)
  else if isNumber dbCounter then
    modify (window_log (LogInfo "initializeMessageCounter: picking fallback counter from the database"));;
    modify (set_receivedAtCounter dbCounter)
  else
    modify (window_log (LogInfo "initializeMessageCounter: defaulting to Date.now()"));;
    modify (set_receivedAtCounter (VNumber (Num now))).

(** [initializeMessageCounter] up to its [await]: the assertion and the
    read of the stored counter. Nothing is written. *)
Definition initialize_begin : M State value :=
  current ← gets receivedAtCounter;
  strictAssert (strictEquals current VUndefined)
    "incrementMessageCounter: already initialized";;
  item ← gets lastReceivedAtCounter;
  mret (Number item).

(** [initializeMessageCounter] from its [await] on: [dbCounter] is what
    [Data.getMaxMessageCounter()] resolved to and [now] is [Date.now()]. *)
Definition initialize_resume (storedCounter dbCounter : value) (now : Z) : M State unit :=
  seedCounter dbCounter storedCounter now;;
  seeded ← gets receivedAtCounter;
  if negb (strictEquals storedCounter seeded) then
    modify (localStorage_setItem (String_ seeded))
  else mret tt.

Definition initializeMessageCounter (dbCounter : value) (now : Z) : M State unit :=
  storedCounter ← initialize_begin;
  initialize_resume storedCounter dbCounter now.

(** Two calls of [initializeMessageCounter] that overlap: the second call
    is made while the first awaits the database, so both run up to their
    [await] before either resumes. The calls resume in the order in which
    they were made, with what the database resolved to for each. *)
Definition initializeOverlapping (dbCounter : value) (now : Z)
    (dbCounter' : value) (now' : Z) : M State unit :=
  storedCounter ← initialize_begin;
  storedCounter' ← initialize_begin;
  initialize_resume storedCounter dbCounter now;;
  initialize_resume storedCounter' dbCounter' now'.

(** The debounced function: a call leaves it pending; it runs when its
    timer of 25 ms fires or when it is flushed. *)
Definition debouncedUpdateLastReceivedAt : M State unit :=
  modify (set_updatePending true).

Definition updateLastReceivedAt : M State unit :=
  current ← gets receivedAtCounter;
  modify (localStorage_setItem (String_ current)).

Definition runPendingUpdate : M State unit :=
  pending ← gets updatePending;
  if pending : bool then
    modify (set_updatePending false);;
    updateLastReceivedAt
  else mret tt.

Definition incrementMessageCounter : M State value :=
  current ← gets receivedAtCounter;
  strictAssert (negb (strictEquals current VUndefined))
    "incrementMessageCounter: not initialized";;
  modify (set_receivedAtCounter (plusOne current));;
  debouncedUpdateLastReceivedAt;;
  gets receivedAtCounter.

Definition flushMessageCounter : M State unit := runPendingUpdate.

(** [n] calls of [incrementMessageCounter] one after the other, with the
    values they returned; a call that throws ends the run. *)
Fixpoint increments (n : nat) (st : State) : list value * State :=
  match n with
  | O => ([], st)
  | S n' =>
      match incrementMessageCounter st with
      | (Returned v, st') =>
          let '(vs, st'') := increments n' st' in (v :: vs, st'')
      | (Threw _, st') => ([], st')
      end
  end.

End Counter.

(** Every value of a list is [<] the one after it. *)
Fixpoint strictlyIncreasing (vs : list value) : bool :=
  match vs with
  | v :: ((w :: _) as rest) => lessThan v w && strictlyIncreasing rest
  | _ => true
  end.

(** A process that has not run [initializeMessageCounter] yet. *)
Definition fresh (item : option string) : State :=
  mkState VUndefined item false [].

(** Instances of the two conversions for whole decimal numerals, used to
    run the module on examples: digits give their number, the empty
    string gives [0] and any other text gives [NaN]. *)
Definition digit (a : ascii) : option Z :=
  let n := Z.of_nat (nat_of_ascii a) in
  if (48 <=? n) && (n <=? 57) then Some (n - 48) else None.

Fixpoint numeral (acc : Z) (s : string) : option Z :=
  match s with
  | EmptyString => Some acc
  | String a s' =>
      match digit a with
      | Some d => numeral (10 * acc + d) s'
      | None => None
      end
  end.

Definition decimalToNumber (s : string) : number :=
  match numeral 0 s with
  | Some z => Num z
  | None => NaN
  end.

Definition numberToDecimal (n : number) : string :=
  match n with
  | Num z => pretty z
  | NaN => "NaN"
  end.

(** What happens in a process once the counter is initialized: a call of
    [incrementMessageCounter], a call of [flushMessageCounter], or the
    timer of the debounced writer firing. *)
Inductive Call : Type :=
  | Increment
  | Flush
  | TimerFires.

Definition perform (NumberToString : number → string) (c : Call) : M State unit :=
  match c with
  | Increment => incrementMessageCounter ≫= λ _, mret tt
  | Flush => flushMessageCounter NumberToString
  | TimerFires => runPendingUpdate NumberToString
  end.

Fixpoint performAll (NumberToString : number → string) (cs : list Call)
  : M State unit :=
  match cs with
  | [] => mret tt
  | c :: cs' => perform NumberToString c;; performAll NumberToString cs'
  end.

(** The stored item reads as the counter, unless a write is pending. *)
Definition current (S2N : string → number) (st : State) : Prop :=
  isNumber (receivedAtCounter st) = true
  ∧ (updatePending st = true
     ∨ Number S2N (lastReceivedAtCounter st) = receivedAtCounter st).

(** A new process on the same [localStorage]: the module variable is
    [undefined] again and the pending write is lost. *)
Definition restart (st : State) : State :=
  mkState VUndefined (lastReceivedAtCounter st) false [].

(** Instances of the two conversions for signed decimal numerals:
    [String] of an integer is its decimal numeral, [Number] of a decimal
    numeral is its integer and [Number] of other text is [NaN]. *)
Definition integerToString (n : number) : string :=
  match n with
  | Num z => NilZero.string_of_int (Z.to_int z)
  | NaN => "NaN"
  end.

Definition stringToInteger (s : string) : number :=
  match NilZero.int_of_string s with
  | Some d => Num (Z.of_int d)
  | None => NaN
  end.

End MessageCounter.

(** ** FakeConversationController of updateConversationsWithUuidLookup_test.ts *)

Module Conversations.

(** The attributes of a [ConversationModel] that the controller and the
    lookup read or write ([ConversationAttributesType]). *)
Record ConversationModel : Type := mkConversation {
  id : string;
  e164 : option string;
  uuid : option string;
  discoveredUnregisteredAt : option Z;
}.

#[global] Instance ConversationModel_eq_dec : EqDecision ConversationModel.
Proof. solve_decision. Defined.

(** [String.prototype.toLowerCase] on the letters [A] to [Z]; identifiers
    are sequences of one-byte characters. A capital letter outside ASCII,
    which the language lowercases as well, is left as it is: this is a
    limit of the model on identifiers that are not the hexadecimal digits
    and dashes of an account identifier. *)
Definition lowerChar (a : ascii) : ascii :=
  let n := nat_of_ascii a in
  if (65 <=? n)%nat && (n <=? 90)%nat then ascii_of_nat (n + 32) else a.

Fixpoint toLowerCase (s : string) : string :=
  match s with
  | EmptyString => EmptyString
  | String a s' => String (lowerChar a) (toLowerCase s')
  end.

(** Modelled from the spec: the methods of [ConversationModel]
    ([ts/models/conversations], not among the sources) that the controller
    calls. Section 4.3: the phone number is stripped from a record
    ([unset('e164')]); a phone number is attached to a record
    ([updateE164]); an account identifier is attached to a record and
    [unregisteredAt] is cleared ([updateUuid]), the identifier being
    lowercased on storage (section 3). *)
Definition unset_e164 (c : ConversationModel) : ConversationModel :=
  mkConversation (id c) None (uuid c) (discoveredUnregisteredAt c).

Definition updateE164 (p : string) (c : ConversationModel) : ConversationModel :=
  mkConversation (id c) (Some p) (uuid c) (discoveredUnregisteredAt c).

Definition updateUuid (u : string) (c : ConversationModel) : ConversationModel :=
  mkConversation (id c) (e164 c) (Some (toLowerCase u)) None.

(** Conversations are objects: the heap holds them by reference (a
    position), and both the controller's array and a caller's variables
    hold references. A method call on a reference rewrites the object in
    the heap. *)
Definition call (r : nat) (method : ConversationModel → ConversationModel)
  : M (list ConversationModel) unit :=
  modify (alter method r).

(** The callback of [get]: [conversation.id === id ||
    conversation.get('e164') === id || conversation.get('uuid') === id],
    for an [id] that is a string. *)
Definition matches (key : string) (c : ConversationModel) : bool :=
  bool_decide (id c = key)
  || bool_decide (e164 c = Some key)
  || bool_decide (uuid c = Some key).

(** [this.conversations.find(...)]: the first reference of the array whose
    object matches. *)
Fixpoint find (h : list ConversationModel) (key : string) (refs : list nat)
  : option nat :=
  match refs with
  | [] => None
  | r :: refs' =>
      match h !! r with
      | Some c => if matches key c then Some r else find h key refs'
      | None => find h key refs'
      end
  end.

(** A string argument is truthy when it is given and not empty. *)
Definition truthy (s : option string) : bool :=
  match s with
  | Some s => negb (String.eqb s "")
  | None => false
  end.

(** The [!] of TypeScript on an argument that an assertion has checked. *)
Definition nonNull (s : option string) : string := default "" s.

(** chai's [assert(condition, message)] and [assert.fail(message)]. *)
Definition assert {S} (condition : bool) (message : string) : M S unit :=
  if condition then mret tt else throw (mkError message).

Definition assert_fail {S A} (message : string) : M S A :=
  throw (mkError message).

(** What a resolver observes: a phone number and an account identifier. *)
Record Observation : Type := mkObservation {
  observed_e164 : string;
  observed_aci : string;
}.

Section Controller.

(** [private readonly conversations]: the array of the controller, which
    no method changes. *)
Variable conversations : list nat.

Definition get (key : string) : M (list ConversationModel) (option nat) :=
  gets (λ h, find h key conversations).

(** The result is the [conversation] field of the returned object;
    [mergePromises] is always empty. *)
Definition maybeMergeContacts (e164 aci reason : option string)
  : M (list ConversationModel) (option nat) :=
  assert (truthy e164)
    "FakeConversationController is not set up for this case (E164 must be provided)";;
  assert (truthy aci)
    "FakeConversationController is not set up for this case (UUID must be provided)";;
  assert (truthy reason)
    "FakeConversationController must be provided a reason when merging";;
  let normalizedUuid := toLowerCase (nonNull aci) in
  convoE164 ← get (nonNull e164);
  convoUuid ← get normalizedUuid;
  assert (bool_decide (is_Some convoE164) || bool_decide (is_Some convoUuid))
    "FakeConversationController is not set up for this case (at least one conversation should be found)";;
  match convoE164, convoUuid with
  | Some a, Some b =>
      if bool_decide (a = b) then mret (Some b)
      else
        call a unset_e164;;
        call b (updateE164 (nonNull e164));;
        mret (Some b)
  | Some a, None =>
      call a (updateUuid normalizedUuid);;
      mret (Some a)
  | None, _ =>
      assert_fail "FakeConversationController should never get here"
  end.

(** One merge, as a change of the heap: a call that throws has changed
    nothing it had not changed before it threw. *)
Definition merge (h : list ConversationModel) (o : Observation)
  : list ConversationModel :=
  snd (maybeMergeContacts (Some (observed_e164 o)) (Some (observed_aci o))
         (Some "merge") h).

Definition mergeAll (os : list Observation) (h : list ConversationModel)
  : list ConversationModel :=
  fold_left merge os h.

(** The heap after [maybeMergeContacts], case by case. *)
Definition mergedHeap (P aci : string) (h : list ConversationModel)
  : list ConversationModel :=
  let n := toLowerCase aci in
  match find h P conversations, find h n conversations with
  | Some a, Some b =>
      if bool_decide (a = b) then h
      else alter (updateE164 P) b (alter unset_e164 a h)
  | Some a, None => alter (updateUuid n) a h
  | None, _ => h
  end.

(** Reference [r] is a record of the directory holding phone number [p],
    or account identifier [u]. *)
Definition holdsE164 (h : list ConversationModel) (r : nat) (p : string) : Prop :=
  r ∈ conversations ∧ ∃ c, h !! r = Some c ∧ e164 c = Some p.

Definition holdsUuid (h : list ConversationModel) (r : nat) (u : string) : Prop :=
  r ∈ conversations ∧ ∃ c, h !! r = Some c ∧ uuid c = Some u.

(** No two distinct records hold the same non-empty phone number, nor the
    same non-empty account identifier. *)
Definition uniqueE164 (h : list ConversationModel) : Prop :=
  ∀ r1 r2 p, p ≠ "" → holdsE164 h r1 p → holdsE164 h r2 p → r1 = r2.

Definition uniqueUuid (h : list ConversationModel) : Prop :=
  ∀ r1 r2 u, u ≠ "" → holdsUuid h r1 u → holdsUuid h r2 u → r1 = r2.

Definition unique (h : list ConversationModel) : Prop :=
  uniqueE164 h ∧ uniqueUuid h.

(** String [k] is no record's local id and no record's account
    identifier; string [k] is no record's phone number. *)
Definition notIdNorUuid (h : list ConversationModel) (k : string) : Prop :=
  ∀ r c, r ∈ conversations → h !! r = Some c → id c ≠ k ∧ uuid c ≠ Some k.

Definition notE164 (h : list ConversationModel) (k : string) : Prop :=
  ∀ r c, r ∈ conversations → h !! r = Some c → e164 c ≠ Some k.

(** The phone numbers of the observations are apart from the local ids
    and from the account identifiers, those of the records and those
    observed. *)
Definition apart (h : list ConversationModel) (os : list Observation) : Prop :=
  ∀ o, o ∈ os →
    notIdNorUuid h (observed_e164 o)
    ∧ ∀ o', o' ∈ os → toLowerCase (observed_aci o') ≠ observed_e164 o.


(** [lookupOrCreate]: the [id] of the conversation that a merge would
    return. It calls no method that writes. *)
Definition getId (r : nat) : M (list ConversationModel) (option string) :=
  gets (λ h, id <$> h !! r).

Definition lookupOrCreate (e164 uuid : option string)
  : M (list ConversationModel) (option string) :=
  assert (truthy e164)
    "FakeConversationController is not set up for this case (E164 must be provided)";;
  assert (truthy uuid)
    "FakeConversationController is not set up for this case (UUID must be provided)";;
  let normalizedUuid := toLowerCase (nonNull uuid) in
  convoE164 ← get (nonNull e164);
  convoUuid ← get normalizedUuid;
  assert (bool_decide (is_Some convoE164) || bool_decide (is_Some convoUuid))
    "FakeConversationController is not set up for this case (at least one conversation should be found)";;
  match convoE164, convoUuid with
  | Some a, Some b =>
      if bool_decide (a = b) then getId b
      else getId b
  | Some a, None => getId a
  | None, _ =>
      assert_fail "FakeConversationController should never get here"
  end.

End Controller.

(** Examples: a record with a phone number and a record with an account
    identifier. *)
Definition alice : ConversationModel :=
  mkConversation "a" (Some "+13215559876") None None.
Definition bob : ConversationModel :=
  mkConversation "b" None (Some "bbbb") None.
Definition seen : Observation := mkObservation "+13215559876" "bbbb".

End Conversations.

(** ** updateConversationsWithUuidLookup *)

Module UuidLookup.

Import Conversations.

(** What the directory reports for a phone number: [{ aci, pni }]. *)
Record LookupResult : Type := mkLookupResult {
  aci : option string;
  pni : option string;
}.

(** How a promise of the server settles. *)
Inductive Reply (A : Type) : Type :=
  | Resolved (a : A)
  | Rejected (e : Error).
Arguments Resolved {A} a.
Arguments Rejected {A} e.

(** [Pick<WebAPIType, 'cdsLookup' | 'checkAccountExistence'>]: the lookup
    maps the phone numbers it found; the existence check is asked about
    the account identifier a record holds. *)
Record Server : Type := mkServer {
  cdsLookup : list string → Reply (gmap string LookupResult);
  checkAccountExistence : option string → Reply bool;
}.

Inductive Event : Type :=
  | CdsLookup (e164s : list string)
  | CheckAccountExistence (uuid : option string)
  | LogError (message : string).

Record State : Type := mkState {
  heap : list ConversationModel;
  events : list Event;
}.

Definition emit (e : Event) : M State unit :=
  modify (λ st, mkState (heap st) (events st ++ [e])).

(** A computation on the heap of conversations, run on the heap of the
    state. *)
Definition onHeap {A} (m : M (list ConversationModel) A) : M State A :=
  λ st, let '(o, h) := m (heap st) in (o, mkState h (events st)).

(** Modelled from the spec: marking a record unregistered (section 4.3):
    its [accountId] is cleared and [unregisteredAt] is set to the current
    time. *)
Definition markUnregistered (now : Z) (c : ConversationModel) : ConversationModel :=
  mkConversation (id c) (e164 c) None (Some now).

(** Batches of at most [limit] phone numbers, at least one per batch. *)
Fixpoint batchesOf (fuel size : nat) (l : list string) : list (list string) :=
  match fuel with
  | O => []
  | S fuel' =>
      match l with
      | [] => []
      | _ => take size l :: batchesOf fuel' size (drop size l)
      end
  end.

Definition batches (limit : nat) (l : list string) : list (list string) :=
  batchesOf (length l) (Nat.max 1 limit) l.

Section Coordinator.

Variable conversationController : list nat.
Variable server : Server.
(** The largest batch the lookup accepts, and the current time. *)
Variable limit : nat.
Variable now : Z.

(** Modelled from the spec: the Batch Lookup Coordinator of section 4.4,
    [updateConversationsWithUuidLookup] of
    [ts/updateConversationsWithUuidLookup], which is not among the sources
    (its test is). Step 1 keeps the candidates that have a phone number.
    Step 2 looks the phone numbers up batch by batch; a batch that fails
    is logged and the others still count. Step 3 routes a result that has
    an account identifier through [maybeMergeContacts]. Step 4 asks the
    existence check about a candidate without a result and marks the
    record unregistered when, and only when, the check reports that the
    account does not exist; a check that fails is logged. *)
Definition candidates (conversations : list nat) : M State (list (nat * string)) :=
  gets (λ st,
    omap (λ r, match heap st !! r ≫= e164 with
               | Some p => if truthy (Some p) then Some (r, p) else None
               | None => None
               end) conversations).

Definition lookupBatch (batch : list string)
  : M State (option (gmap string LookupResult)) :=
  emit (CdsLookup batch);;
  match cdsLookup server batch with
  | Resolved found => mret (Some found)
  | Rejected (mkError message) => emit (LogError message);; mret None
  end.

(** The results of all the batches, and the phone numbers of the batches
    that failed. *)
Fixpoint lookupBatches (bs : list (list string))
  : M State (gmap string LookupResult * list string) :=
  match bs with
  | [] => mret (∅, [])
  | b :: bs' =>
      r ← lookupBatch b;
      rest ← lookupBatches bs';
      match r with
      | Some found => mret (found ∪ rest.1, rest.2)
      | None => mret (rest.1, b ++ rest.2)
      end
  end.

Definition detectUnregistered (candidate : nat) : M State unit :=
  known ← gets (λ st, heap st !! candidate ≫= uuid);
  emit (CheckAccountExistence known);;
  match checkAccountExistence server known with
  | Resolved true => mret tt
  | Resolved false => onHeap (call candidate (markUnregistered now))
  | Rejected (mkError message) => emit (LogError message)
  end.

Definition reconcile (results : gmap string LookupResult) (failed : list string)
    (candidate : nat * string) : M State unit :=
  let '(r, p) := candidate in
  if bool_decide (p ∈ failed) then mret tt
  else
    match results !! p ≫= aci with
    | Some a =>
        onHeap (maybeMergeContacts conversationController (Some p) (Some a)
                  (Some "updateConversationsWithUuidLookup"));;
        mret tt
    | None => detectUnregistered r
    end.

Fixpoint reconcileAll (results : gmap string LookupResult) (failed : list string)
    (cs : list (nat * string)) : M State unit :=
  match cs with
  | [] => mret tt
  | c :: cs' => reconcile results failed c;; reconcileAll results failed cs'
  end.

Definition updateConversationsWithUuidLookup (conversations : list nat)
  : M State unit :=
  cs ← candidates conversations;
  match cs with
  | [] => mret tt
  | _ =>
      looked ← lookupBatches (batches limit (cs.*2));
      reconcileAll looked.1 looked.2 cs
  end.

End Coordinator.




(** The scenarios of the test file, on a server that answers every lookup
    with [found] and every existence check with [exists_]. *)
Definition answering (found : gmap string LookupResult) (exists_ : bool) : Server :=
  mkServer (λ _, Resolved found) (λ _, Resolved exists_).

Definition noon : Z := 1700000000000.

Definition carol : ConversationModel :=
  mkConversation "c" (Some "+13215559876") (Some "cccc") None.
Definition dave : ConversationModel :=
  mkConversation "d" (Some "+16545559876") (Some "dddd") None.
Definition erin : ConversationModel :=
  mkConversation "e" (Some "+13215559876") None None.

Definition run_lookup (controller : list nat) (server : Server)
    (conversations : list nat) (h : list ConversationModel) : Outcome unit * State :=
  updateConversationsWithUuidLookup controller server 100 noon
    conversations (mkState h []).

Definition grace : ConversationModel :=
  mkConversation "g" (Some "+16545559876") None None.
Definition onlyGrace : gmap string LookupResult :=
  {[ "+16545559876" := mkLookupResult (Some "1111") None ]}.

(** Two more records with a phone number each, and a directory in which
    the account identifier of the second phone number is the first phone
    number. *)
Definition heidi : ConversationModel :=
  mkConversation "h" (Some "+2") None None.
Definition ivan : ConversationModel :=
  mkConversation "i" (Some "+3") None None.
Definition chained (a : string) : gmap string LookupResult :=
  {[ "+2" := mkLookupResult (Some a) None;
     "+3" := mkLookupResult (Some "+2") None ]}.

End UuidLookup.

(** ** The accounts duck (state/ducks/accounts) *)

Module Accounts.

Import UuidLookup.

(** [Record<string, UUIDStringType | undefined>]: a key can be present
    with the value [undefined], which [hasOwnProperty] tells from an
    absent key. *)
Record AccountsStateType : Type := mkAccounts {
  accounts : gmap string (option string);
}.

Inductive Action : Type :=
  | NOOP
  | AccountsUpdate (phoneNumber : string) (uuid : option string).

Definition getEmptyState : AccountsStateType := mkAccounts ∅.

(** A state argument that can be [undefined] or [null]. *)
Inductive Nullable (A : Type) : Type :=
  | Undefined
  | Null
  | Defined (a : A).
Arguments Undefined {A}.
Arguments Null {A}.
Arguments Defined {A} a.

Definition reducer (state : Nullable AccountsStateType) (action : Action)
  : AccountsStateType :=
  let state := match state with Undefined => Defined getEmptyState | s => s end in
  match state with
  | Defined state =>
      match action with
      | AccountsUpdate phoneNumber uuid =>
          mkAccounts (<[phoneNumber := uuid]> (accounts state))
      | NOOP => state
      end
  | _ => getEmptyState
  end.

(** What the thunk reaches outside the store: whether
    [window.textsecure.server] is set; the [uuid] of the conversation that
    [window.ConversationController.get] finds for a key, if it finds one;
    how [getUuidsForE164s] settles; and what
    [window.ConversationController.maybeMergeContacts] returns, the [uuid]
    of the merged conversation if there is one, or throws. These live in
    modules that are not among the sources. *)
Record World : Type := mkWorld {
  server : bool;
  conversationUuid : string → option (option string);
  getUuidsForE164s : list string → Reply (gmap string LookupResult);
  maybeMergeContacts : LookupResult → string → Outcome (option (option string));
}.

Inductive Effect : Type :=
  | Dispatched (action : Action)
  | LogInfo (message : string)
  | LogError (message : string)
  | LookedUp (e164s : list string).

(** The [accounts] slice of the store and the effects so far. *)
Record Store : Type := mkStore {
  getState : AccountsStateType;
  effects : list Effect;
}.

Definition perform (e : Effect) : M Store unit :=
  modify (λ st, mkStore (getState st) (effects st ++ [e])).

Definition dispatch (action : Action) : M Store unit :=
  modify (λ st, mkStore (reducer (Defined (getState st)) action)
                        (effects st ++ [Dispatched action])).

(** [await] of a promise: a rejection is thrown. *)
Definition await {A} (r : Reply A) : M Store A :=
  match r with
  | Resolved a => mret a
  | Rejected e => throw e
  end.

Definition fromOutcome {A} (o : Outcome A) : M Store A :=
  match o with
  | Returned a => mret a
  | Threw e => throw e
  end.

Definition toLogFormat (e : Error) : string :=
  match e with mkError message => message end.

(** [conversation && conversation.get('uuid')]: a conversation was found
    and its [uuid] is a string that is not empty. *)
Definition knownUuid (conversation : option (option string)) : option string :=
  match conversation with
  | Some (Some uuid) => if String.eqb uuid "" then None else Some uuid
  | _ => None
  end.

Section Thunk.

Variable world : World.

Definition checkForAccount (phoneNumber : string) : M Store unit :=
  if negb (server world) then dispatch NOOP
  else
    match knownUuid (conversationUuid world phoneNumber) with
    | Some uuid =>
        perform (LogInfo ("checkForAccount: found " +:+ phoneNumber +:+ " in existing contacts"));;
        dispatch (AccountsUpdate phoneNumber (Some uuid))
    | None =>
        state ← gets getState;
        let existing := bool_decide (is_Some (accounts state !! phoneNumber)) in
        if existing then dispatch NOOP
        else
          perform (LogInfo ("checkForAccount: looking " +:+ phoneNumber +:+ " up on server"));;
          uuid ← try_catch
            (perform (LookedUp [phoneNumber]);;
             uuidLookup ← await (getUuidsForE164s world [phoneNumber]);
             match uuidLookup !! phoneNumber with
             | Some maybePair =>
                 maybeMerged ← fromOutcome (maybeMergeContacts world maybePair phoneNumber);
                 mret (match maybeMerged with
                       | Some conversation => conversation
                       | None => None
                       end)
             | None => mret None
             end)
            (λ error,
               perform (LogError ("checkForAccount: " +:+ toLogFormat error));;
               mret None);
          dispatch (AccountsUpdate phoneNumber uuid)
    end.

(** The same thunk in the two parts that its [await] of line 95 makes of
    it. The first part runs the guards and, when none of them returns,
    requests the lookup; its result tells whether the run is now suspended
    at the [await]. The second part runs when the lookup has settled:
    the merge, the [catch] and the dispatch. Other code, another run of
    the thunk included, can run between the two. *)
Definition checkForAccount_begin (phoneNumber : string) : M Store bool :=
  if negb (server world) then dispatch NOOP;; mret false
  else
    match knownUuid (conversationUuid world phoneNumber) with
    | Some uuid =>
        perform (LogInfo ("checkForAccount: found " +:+ phoneNumber +:+ " in existing contacts"));;
        dispatch (AccountsUpdate phoneNumber (Some uuid));;
        mret false
    | None =>
        state ← gets getState;
        let existing := bool_decide (is_Some (accounts state !! phoneNumber)) in
        if existing then dispatch NOOP;; mret false
        else
          perform (LogInfo ("checkForAccount: looking " +:+ phoneNumber +:+ " up on server"));;
          perform (LookedUp [phoneNumber]);;
          mret true
    end.

Definition checkForAccount_resume (phoneNumber : string) : M Store unit :=
  uuid ← try_catch
    (uuidLookup ← await (getUuidsForE164s world [phoneNumber]);
     match uuidLookup !! phoneNumber with
     | Some maybePair =>
         maybeMerged ← fromOutcome (maybeMergeContacts world maybePair phoneNumber);
         mret (match maybeMerged with
               | Some conversation => conversation
               | None => None
               end)
     | None => mret None
     end)
    (λ error,
       perform (LogError ("checkForAccount: " +:+ toLogFormat error));;
       mret None);
  dispatch (AccountsUpdate phoneNumber uuid).

(** Two runs for one phone number that overlap: the second run starts
    while the first is suspended at its [await], and the two resume in the
    order in which they started. *)
Definition checkOverlapping (phoneNumber : string) : M Store unit :=
  first ← checkForAccount_begin phoneNumber;
  second ← checkForAccount_begin phoneNumber;
  (if first : bool then checkForAccount_resume phoneNumber else mret tt);;
  (if second : bool then checkForAccount_resume phoneNumber else mret tt).

End Thunk.

(** Whether a run performed the remote lookup. *)
Definition lookedUp (es : list Effect) : bool :=
  existsb (λ e, match e with LookedUp _ => true | _ => false end) es.

(** The effects of one run of the thunk from a store. *)
Definition performed (world : World) (phoneNumber : string) (st : Store)
  : list Effect :=
  drop (length (effects st)) (effects (checkForAccount world phoneNumber st).2).

(** A world in which the server is reachable, no conversation is known
    and the lookup fails, as a rate limit would make it. *)
Definition offline : World :=
  mkWorld true (λ _, None)
    (λ _, Rejected (mkError "rate limited"))
    (λ _ _, Returned None).

(** A world in which the lookup would succeed. *)
Definition online : World :=
  mkWorld true (λ _, None)
    (λ _, Resolved {["+13215559876" := mkLookupResult (Some "bbbb") None]})
    (λ _ _, Returned (Some (Some "bbbb"))).

(** The actions that a list of effects dispatched, and how many remote
    lookups it made. *)
Definition dispatched (es : list Effect) : list Action :=
  omap (λ e, match e with Dispatched a => Some a | _ => None end) es.

Definition lookups (es : list Effect) : nat :=
  length (omap (λ e, match e with LookedUp l => Some l | _ => None end) es).

(** Runs of the thunk for one phone number that do not overlap: each run
    has returned, its dispatch made, before the next one starts. Each run
    has its own state of the world. *)
Fixpoint checkRepeatedly (worlds : list World) (phoneNumber : string)
  : M Store unit :=
  match worlds with
  | [] => mret tt
  | w :: ws => checkForAccount w phoneNumber;; checkRepeatedly ws phoneNumber
  end.

(** The state after a list of actions, and the last update of a phone
    number in a list of actions. *)
Definition reduce (state : AccountsStateType) (actions : list Action)
  : AccountsStateType :=
  fold_left (λ s a, reducer (Defined s) a) actions state.

Fixpoint lastUpdate (phoneNumber : string) (actions : list Action)
  : option (option string) :=
  match actions with
  | [] => None
  | a :: actions' =>
      match lastUpdate phoneNumber actions' with
      | Some u => Some u
      | None =>
          match a with
          | AccountsUpdate q u =>
              if bool_decide (q = phoneNumber) then Some u else None
          | NOOP => None
          end
      end
  end.

(** Whether a run looks up: there is a server, no conversation with an
    account identifier is known, and the phone number is no key of the
    accounts. *)
Definition mustLookUp (world : World) (phoneNumber : string)
    (state : AccountsStateType) : bool :=
  server world
  && bool_decide (knownUuid (conversationUuid world phoneNumber) = None)
  && bool_decide (accounts state !! phoneNumber = None).

(** What the [try] block of the thunk leaves in [uuid], and what its
    [catch] logs. *)
Definition lookupUuid (world : World) (phoneNumber : string)
  : option string * list Effect :=
  match getUuidsForE164s world [phoneNumber] with
  | Resolved found =>
      match found !! phoneNumber with
      | Some maybePair =>
          match maybeMergeContacts world maybePair phoneNumber with
          | Returned (Some conversation) => (conversation, [])
          | Returned None => (None, [])
          | Threw e => (None, [LogError ("checkForAccount: " +:+ toLogFormat e)])
          end
      | None => (None, [])
      end
  | Rejected e => (None, [LogError ("checkForAccount: " +:+ toLogFormat e)])
  end.

(** The action that a run of the thunk dispatches, and its effects before
    the dispatch. *)
Definition steps (world : World) (phoneNumber : string) (state : AccountsStateType)
  : Action * list Effect :=
  if negb (server world) then (NOOP, [])
  else
    match knownUuid (conversationUuid world phoneNumber) with
    | Some uuid =>
        (AccountsUpdate phoneNumber (Some uuid),
         [LogInfo ("checkForAccount: found " +:+ phoneNumber +:+ " in existing contacts")])
    | None =>
        if bool_decide (is_Some (accounts state !! phoneNumber)) then (NOOP, [])
        else
          (AccountsUpdate phoneNumber (lookupUuid world phoneNumber).1,
           [LogInfo ("checkForAccount: looking " +:+ phoneNumber +:+ " up on server");
            LookedUp [phoneNumber]] ++ (lookupUuid world phoneNumber).2)
    end.

End Accounts.

(** * Theorems *)

(** Runs the monadic operations of a goal: each bind is replaced by what
    it does to the state. *)
Ltac run :=
  cbv [mbind mret M_mbind M_mret M_bind M_ret modify gets throw try_catch
       strictAssert];
  cbn.

Module MessageCounterFacts.

Import MessageCounter.
Local Open Scope Z_scope.

Lemma strictEquals_undefined (v : value) :
  strictEquals v VUndefined = negb (isNumber v).
Proof. by destruct v as [|[]]. Qed.

Lemma isNumber_Number (S2N : string → number) (item : option string) :
  isNumber (Number S2N item) = true.
Proof. by destruct item. Qed.

Lemma seedCounter_returns (dbCounter storedCounter : value) (now : Z) (st : State) :
  (seedCounter dbCounter storedCounter now st).1 = Returned tt.
Proof.
  unfold seedCounter.
  destruct (isNumber dbCounter), (isNumber storedCounter); run; try done.
  by destruct (strictEquals _ _).
Qed.

Lemma seedCounter_seed (dbCounter storedCounter : value) (now : Z) (st : State) :
  receivedAtCounter (seedCounter dbCounter storedCounter now st).2
  = seedOf dbCounter storedCounter now.
Proof.
  unfold seedCounter, seedOf.
  destruct (isNumber dbCounter), (isNumber storedCounter); run; try done.
  by destruct (strictEquals _ _).
Qed.

Lemma initialize_resume_seed (N2S : number → string)
    (storedCounter dbCounter : value) (now : Z) (st : State) :
  (initialize_resume N2S storedCounter dbCounter now st).1 = Returned tt
  ∧ receivedAtCounter (initialize_resume N2S storedCounter dbCounter now st).2
    = seedOf dbCounter storedCounter now.
Proof.
  unfold initialize_resume.
  pose proof (seedCounter_returns dbCounter storedCounter now st) as Hr.
  pose proof (seedCounter_seed dbCounter storedCounter now st) as Hs.
  run.
  destruct (seedCounter dbCounter storedCounter now st) as [o st1].
  cbn in Hr, Hs. subst o. rewrite Hs.
  by destruct (strictEquals _ _).
Qed.

(** From a process that is not initialized, [initializeMessageCounter]
    returns and seeds the counter from the stored item and the database
    counter. *)
Lemma initialize_seed (S2N : string → number) (N2S : number → string)
    (dbCounter : value) (now : Z) (st : State) :
  receivedAtCounter st = VUndefined →
  (initializeMessageCounter S2N N2S dbCounter now st).1 = Returned tt
  ∧ receivedAtCounter (initializeMessageCounter S2N N2S dbCounter now st).2
    = seedOf dbCounter (Number S2N (lastReceivedAtCounter st)) now.
Proof.
  intros Hu. unfold initializeMessageCounter, initialize_begin.
  run. rewrite Hu. cbn.
  apply initialize_resume_seed.
Qed.

(** An integer between [-2^53] and [2^53] is a double. *)
Lemma roundToDouble_exact (z : Z) :
  - twoTo53 ≤ z ≤ twoTo53 → roundToDouble z = z.
Proof.
  intros Hz. unfold roundToDouble.
  destruct (Z.leb_spec (Z.abs z) twoTo53) as [_|H]; [done|lia].
Qed.

Lemma plusOne_exact (z : Z) :
  - twoTo53 ≤ z < twoTo53 →
  plusOne (VNumber (Num z)) = VNumber (Num (z + 1)).
Proof.
  intros Hz. unfold plusOne. cbn [ToNumber].
  rewrite roundToDouble_exact; [done|lia].
Qed.

(** Above [2^53] a sum is rounded to the nearest double, a tie going to
    the even significand. *)
Example roundToDouble_rounds :
  twoTo53 = 2 ^ 53
  ∧ roundToDouble (twoTo53 + 1) = twoTo53
  ∧ roundToDouble (twoTo53 + 3) = twoTo53 + 4
  ∧ roundToDouble (- twoTo53 - 1) = - twoTo53
  ∧ roundToDouble (2 * twoTo53 + 1) = 2 * twoTo53
  ∧ roundToDouble (2 * twoTo53 + 3) = 2 * twoTo53 + 4.
Proof. by vm_compute. Qed.

(** One call on a counter that holds the integer [z], from [-2^53] and
    below [2^53], returns [z + 1] and leaves it in the counter. *)
Lemma increment_number (z : Z) (st : State) :
  receivedAtCounter st = VNumber (Num z) →
  - twoTo53 ≤ z < twoTo53 →
  ∃ st', incrementMessageCounter st = (Returned (VNumber (Num (z + 1))), st')
         ∧ receivedAtCounter st' = VNumber (Num (z + 1)).
Proof.
  intros Hz Hb. unfold incrementMessageCounter, debouncedUpdateLastReceivedAt.
  run. rewrite Hz. cbn [strictEquals negb]. rewrite (plusOne_exact z Hb). cbn. eauto.
Qed.

Lemma strictlyIncreasing_cons (z : Z) (vs : list value) :
  Forall (λ v, lessThan (VNumber (Num z)) v = true) vs →
  strictlyIncreasing vs = true →
  strictlyIncreasing (VNumber (Num z) :: vs) = true.
Proof.
  intros Hall Hvs. destruct vs as [|w vs]; [done|].
  cbn [strictlyIncreasing]. apply Forall_cons in Hall as [Hw _].
  rewrite Hw. exact Hvs.
Qed.

(** On a counter seeded with an integer, every run of calls that stays
    between [-2^53] and [2^53] returns values that are strictly
    increasing, all above the seed, and no call throws. *)
Lemma increments_from_number (n : nat) (z : Z) (st : State) :
  receivedAtCounter st = VNumber (Num z) →
  - twoTo53 ≤ z → z + Z.of_nat n ≤ twoTo53 →
  length (increments n st).1 = n
  ∧ Forall (λ v, lessThan (VNumber (Num z)) v = true) (increments n st).1
  ∧ strictlyIncreasing (increments n st).1 = true.
Proof.
  revert z st. induction n as [|n IH]; intros z st Hz Hlo Hhi.
  - cbn. by repeat split.
  - cbn [increments].
    destruct (increment_number z st Hz) as (st' & -> & Hz'); [lia|].
    destruct (IH (z + 1) st' Hz') as (Hlen & Hall & Hinc); [lia|lia|].
    destruct (increments n st') as [vs st'']. cbn in *.
    assert (Hall' : Forall (λ v, lessThan (VNumber (Num z)) v = true) vs).
    { eapply Forall_impl; [exact Hall|]. intros v. unfold lessThan. cbn.
      destruct (ToNumber v); [|done]. intros H.
      apply Z.ltb_lt in H. apply Z.ltb_lt. lia. }
    split; [by rewrite Hlen|]. split.
    + apply Forall_cons. split; [|exact Hall'].
      unfold lessThan. cbn. apply Z.ltb_lt. lia.
    + by apply strictlyIncreasing_cons.
Qed.

(** C1, as amended. When the stored checkpoint reads as the number [s]:
    if the durable store reports the maximum [d], [initializeMessageCounter]
    seeds the counter with the larger of [d] and [s], and if the durable
    store reports none, with [s]. The current time [now] does not enter
    the maximum. *)
Theorem initialize_seeds_max_of_stored_and_db
    (S2N : string → number) (N2S : number → string)
    (text : string) (s d now : Z) (st : State) :
  receivedAtCounter st = VUndefined →
  lastReceivedAtCounter st = Some text →
  S2N text = Num s →
  receivedAtCounter
    (initializeMessageCounter S2N N2S (VNumber (Num d)) now st).2
  = VNumber (Num (Z.max d s))
  ∧ receivedAtCounter (initializeMessageCounter S2N N2S VUndefined now st).2
    = VNumber (Num s).
Proof.
  intros Hu Hitem Hs.
  destruct (initialize_seed S2N N2S (VNumber (Num d)) now st Hu) as [_ ->].
  destruct (initialize_seed S2N N2S VUndefined now st Hu) as [_ ->].
  rewrite Hitem. cbn. unfold seedOf, Math_max. cbn. by rewrite Hs.
Qed.

Lemma initialize_seeds_max_of_stored_and_db_witness :
  receivedAtCounter
    (initializeMessageCounter decimalToNumber numberToDecimal
       (VNumber (Num 7)) 1000 (fresh (Some "5"))).2
  = VNumber (Num (Z.max 7 5))
  ∧ receivedAtCounter
      (initializeMessageCounter decimalToNumber numberToDecimal
         VUndefined 1000 (fresh (Some "5"))).2
    = VNumber (Num 5).
Proof.
  apply (initialize_seeds_max_of_stored_and_db decimalToNumber numberToDecimal
           "5" 5 7 1000 (fresh (Some "5"))); reflexivity.
Defined.

(** C1 fails as stated: with the checkpoint 5 stored, the durable maximum
    7 and the clock at 1000, the counter is seeded with 7, which is not the
    maximum of the three, 1000. *)
Lemma initialize_ignores_current_time :
  let seeded :=
    receivedAtCounter
      (initializeMessageCounter decimalToNumber numberToDecimal
         (VNumber (Num 7)) 1000 (fresh (Some "5"))).2 in
  seeded = VNumber (Num 7)
  ∧ seeded ≠ VNumber (Num (Z.max (Z.max 5 7) 1000)).
Proof. split; [reflexivity | by vm_compute]. Qed.

(** C2. The claim is that the values returned by successive calls of
    [incrementMessageCounter] after initialization are strictly
    increasing. When the stored item is text that is not a number,
    [Number] gives [NaN], [isNumber] accepts it, the maximum taken with the
    database counter 7 is [NaN], and two calls then return [NaN] and
    [NaN]: the second value is not greater than the first. *)
Theorem increments_after_NaN_seed :
  let st :=
    (initializeMessageCounter decimalToNumber numberToDecimal
       (VNumber (Num 7)) 1000 (fresh (Some "corrupt"))).2 in
  receivedAtCounter st = VNumber NaN
  ∧ (increments 2 st).1 = [VNumber NaN; VNumber NaN]
  ∧ strictlyIncreasing (increments 2 st).1 = false.
Proof. by vm_compute. Qed.

(** C9, as amended. [initializeMessageCounter] on a counter that an
    earlier call has finished initializing throws "already initialized"
    and leaves the state as it was; [incrementMessageCounter] on a counter
    that is not initialized throws "not initialized" and leaves the state
    as it was; and the part of [initializeMessageCounter] that runs before
    its [await] writes nothing, so that the counter is still not
    initialized until the call has completed. *)
Theorem lifecycle_misuse_throws
    (S2N : string → number) (N2S : number → string)
    (n : number) (item : option string) (pending : bool) (lg : list LogLine)
    (dbCounter dbCounter' : value) (now now' : Z) :
  let initialized := mkState (VNumber n) item pending lg in
  let uninitialized := mkState VUndefined item pending lg in
  let once := (initializeMessageCounter S2N N2S dbCounter now uninitialized).2 in
  initializeMessageCounter S2N N2S dbCounter now initialized
  = (Threw AlreadyInitialized, initialized)
  ∧ initializeMessageCounter S2N N2S dbCounter' now' once
    = (Threw AlreadyInitialized, once)
  ∧ incrementMessageCounter uninitialized = (Threw NotInitialized, uninitialized)
  ∧ (initialize_begin S2N uninitialized).2 = uninitialized.
Proof.
  intros initialized uninitialized once.
  assert (Hthrow : ∀ st db t, isNumber (receivedAtCounter st) = true →
            initializeMessageCounter S2N N2S db t st = (Threw AlreadyInitialized, st)).
  { intros st db t Hn. unfold initializeMessageCounter, initialize_begin. run.
    rewrite strictEquals_undefined, Hn. reflexivity. }
  split; [by apply Hthrow|]. split; [|split].
  - apply Hthrow. subst once.
    destruct (initialize_seed S2N N2S dbCounter now uninitialized eq_refl) as [_ ->].
    cbn [lastReceivedAtCounter uninitialized]. unfold seedOf.
    rewrite isNumber_Number, andb_true_r.
    destruct dbCounter as [|d]; cbn; [apply isNumber_Number|].
    unfold Math_max. by destruct (ToNumber (VNumber d)), (ToNumber (Number S2N item)).
  - reflexivity.
  - reflexivity.
Qed.

(** C9 fails as stated: a second call of [initializeMessageCounter] that
    is made while the first still awaits the database is not rejected.
    The counter is [undefined] until the first call resumes, so the
    assertion of the second call passes, and both calls return. With the
    checkpoint 5 stored and the database at 7 for both calls, the second
    call seeds the counter once more; when the database answers the second
    call with no maximum, the second call even takes the counter back from
    7 to the 5 it read before the first call wrote, and the stored item
    stays at 7. The same second call made after the first has returned is
    rejected. *)
Lemma overlapping_initialize_is_not_rejected :
  let st := fresh (Some "5") in
  let overlapping :=
    initializeOverlapping decimalToNumber numberToDecimal
      (VNumber (Num 7)) 1000 (VNumber (Num 7)) 1000 st in
  let lowering :=
    initializeOverlapping decimalToNumber numberToDecimal
      (VNumber (Num 7)) 1000 VUndefined 1000 st in
  let sequential :=
    (initializeMessageCounter decimalToNumber numberToDecimal (VNumber (Num 7)) 1000;;
     initializeMessageCounter decimalToNumber numberToDecimal (VNumber (Num 7)) 1000)
      st in
  overlapping.1 = Returned tt
  ∧ overlapping.1 ≠ Threw AlreadyInitialized
  ∧ lowering.1 = Returned tt
  ∧ receivedAtCounter lowering.2 = VNumber (Num 5)
  ∧ lastReceivedAtCounter lowering.2 = Some "7"
  ∧ sequential.1 = Threw AlreadyInitialized.
Proof. by vm_compute. Qed.


(** The stored counter is always a number, so a run of
    [initializeMessageCounter] never defaults to [Date.now()]: its seed
    does not depend on the current time. *)
Lemma initialize_never_reads_clock
    (S2N : string → number) (N2S : number → string)
    (dbCounter : value) (now now' : Z) (st : State) :
  receivedAtCounter st = VUndefined →
  receivedAtCounter (initializeMessageCounter S2N N2S dbCounter now st).2
  = receivedAtCounter (initializeMessageCounter S2N N2S dbCounter now' st).2.
Proof.
  intros Hu.
  destruct (initialize_seed S2N N2S dbCounter now st Hu) as [_ ->].
  destruct (initialize_seed S2N N2S dbCounter now' st Hu) as [_ ->].
  unfold seedOf. rewrite isNumber_Number, andb_true_r.
  by destruct (isNumber dbCounter).
Qed.

End MessageCounterFacts.

Module ConversationsFacts.

Import Conversations.

Lemma lowerChar_lowerChar (a : ascii) : lowerChar (lowerChar a) = lowerChar a.
Proof. by destruct a as [[] [] [] [] [] [] [] []]. Qed.

Lemma toLowerCase_toLowerCase (s : string) :
  toLowerCase (toLowerCase s) = toLowerCase s.
Proof.
  induction s as [|a s IH]; [done|].
  cbn [toLowerCase]. by rewrite lowerChar_lowerChar, IH.
Qed.

Lemma truthy_Some (s : string) : truthy (Some s) = true ↔ s ≠ "".
Proof.
  unfold truthy. destruct (String.eqb_spec s ""); cbn; naive_solver.
Qed.

Lemma matches_spec (key : string) (c : ConversationModel) :
  matches key c = true ↔ id c = key ∨ e164 c = Some key ∨ uuid c = Some key.
Proof.
  unfold matches. rewrite !orb_true_iff, !bool_decide_eq_true. tauto.
Qed.

Section Find.

Variable conversations : list nat.

Lemma find_Some (h : list ConversationModel) (key : string) (refs : list nat) (r : nat) :
  find h key refs = Some r →
  r ∈ refs ∧ ∃ c, h !! r = Some c ∧ matches key c = true.
Proof.
  induction refs as [|r0 refs IH]; [done|]. cbn [find].
  destruct (h !! r0) as [c|] eqn:Hc.
  - destruct (matches key c) eqn:Hm.
    + intros [= <-]. split; [left | eauto].
    + intros H. destruct (IH H) as [? ?]. split; [by right | done].
  - intros H. destruct (IH H) as [? ?]. split; [by right | done].
Qed.

Lemma find_None (h : list ConversationModel) (key : string) (refs : list nat) :
  find h key refs = None →
  ∀ r c, r ∈ refs → h !! r = Some c → matches key c = false.
Proof.
  induction refs as [|r0 refs IH]; intros Hf r c Hr Hc.
  - by apply elem_of_nil in Hr.
  - cbn [find] in Hf. apply elem_of_cons in Hr as [-> | Hr].
    + rewrite Hc in Hf. by destruct (matches key c).
    + destruct (h !! r0) as [c0|]; [destruct (matches key c0); [done|]|];
        by eapply IH.
Qed.

(** The first match stays the first match when the objects change, as long
    as it still matches and no object that did not match comes to match. *)
Lemma find_stable (h h' : list ConversationModel) (key : string)
    (refs : list nat) (r : nat) :
  find h key refs = Some r →
  (∀ r' c', r' ∈ refs → h' !! r' = Some c' → matches key c' = true →
            ∃ c, h !! r' = Some c ∧ matches key c = true) →
  (∃ c', h' !! r = Some c' ∧ matches key c' = true) →
  find h' key refs = Some r.
Proof.
  intros Hf Hsub Hr. induction refs as [|r0 refs IH]; [done|].
  cbn [find] in Hf |- *.
  assert (Hrest : ∀ r' c', r' ∈ refs → h' !! r' = Some c' → matches key c' = true →
                   ∃ c, h !! r' = Some c ∧ matches key c = true).
  { intros r' c' Hin. apply Hsub. by right. }
  destruct (h !! r0) as [c0|] eqn:Hc0.
  - destruct (matches key c0) eqn:Hm0.
    + injection Hf as <-. destruct Hr as (c' & -> & ->). done.
    + destruct (h' !! r0) as [c0'|] eqn:Hc0'; [|by apply IH].
      destruct (matches key c0') eqn:Hm0'; [|by apply IH].
      destruct (Hsub r0 c0') as (c & Hc & Hm); [left | done | done |].
      congruence.
  - destruct (h' !! r0) as [c0'|] eqn:Hc0'; [|by apply IH].
    destruct (matches key c0') eqn:Hm0'; [|by apply IH].
    destruct (Hsub r0 c0') as (c & Hc & Hm); [left | done | done |].
    congruence.
Qed.

(** A reference that is the only match is the one found. *)
Lemma find_only (h : list ConversationModel) (key : string)
    (refs : list nat) (r : nat) (c : ConversationModel) :
  r ∈ refs → h !! r = Some c → matches key c = true →
  (∀ r' c', r' ∈ refs → h !! r' = Some c' → matches key c' = true → r' = r) →
  find h key refs = Some r.
Proof.
  intros Hin Hc Hm Honly.
  destruct (find h key refs) as [r'|] eqn:Hf.
  - destruct (find_Some _ _ _ _ Hf) as (Hin' & c' & Hc' & Hm').
    f_equal. by eapply Honly.
  - pose proof (find_None _ _ _ Hf r c Hin Hc). congruence.
Qed.

Lemma maybeMergeContacts_heap (P aci reason : string) (h : list ConversationModel) :
  P ≠ "" → aci ≠ "" → reason ≠ "" →
  (maybeMergeContacts conversations (Some P) (Some aci) (Some reason) h).2
  = mergedHeap conversations P aci h.
Proof.
  intros HP Ha Hr. unfold maybeMergeContacts, mergedHeap, get, assert, assert_fail, call.
  apply truthy_Some in HP, Ha, Hr. rewrite HP, Ha, Hr. run.
  destruct (find h P conversations) as [a|], (find h (toLowerCase aci) conversations) as [b|];
    cbn; try done.
  by destruct (bool_decide (a = b)).
Qed.

Lemma merge_heap (h : list ConversationModel) (o : Observation) :
  merge conversations h o = h
  ∨ (observed_e164 o ≠ ""
     ∧ merge conversations h o = mergedHeap conversations (observed_e164 o) (observed_aci o) h).
Proof.
  unfold merge.
  destruct (decide (observed_e164 o = "")) as [HP|HP].
  { left. unfold maybeMergeContacts, assert. rewrite HP. by run. }
  destruct (decide (observed_aci o = "")) as [Ha|Ha].
  { left. unfold maybeMergeContacts, assert. rewrite Ha.
    apply truthy_Some in HP. rewrite HP. by run. }
  right. split; [done|]. by apply maybeMergeContacts_heap.
Qed.

Lemma lookup_alter_Some (f : ConversationModel → ConversationModel)
    (h : list ConversationModel) (i r : nat) (c' : ConversationModel) :
  alter f i h !! r = Some c' →
  (r = i ∧ ∃ c, h !! i = Some c ∧ c' = f c) ∨ (r ≠ i ∧ h !! r = Some c').
Proof.
  destruct (decide (r = i)) as [->|Hne].
  - rewrite list_lookup_alter_eq. destruct (h !! i) as [c|]; [|done].
    intros [= <-]. left. eauto.
  - rewrite list_lookup_alter_ne by done. eauto.
Qed.

Lemma holdsE164_alter (f : ConversationModel → ConversationModel)
    (h : list ConversationModel) (i r : nat) (p : string) :
  holdsE164 conversations (alter f i h) r p →
  (r = i ∧ ∃ c, h !! i = Some c ∧ e164 (f c) = Some p)
  ∨ (r ≠ i ∧ holdsE164 conversations h r p).
Proof.
  intros (Hin & c' & Hc' & He).
  apply lookup_alter_Some in Hc' as [(-> & c & Hc & ->) | (Hne & Hc)].
  - left. eauto.
  - right. split; [done|]. split; eauto.
Qed.

Lemma holdsUuid_alter (f : ConversationModel → ConversationModel)
    (h : list ConversationModel) (i r : nat) (u : string) :
  holdsUuid conversations (alter f i h) r u →
  (r = i ∧ ∃ c, h !! i = Some c ∧ uuid (f c) = Some u)
  ∨ (r ≠ i ∧ holdsUuid conversations h r u).
Proof.
  intros (Hin & c' & Hc' & He).
  apply lookup_alter_Some in Hc' as [(-> & c & Hc & ->) | (Hne & Hc)].
  - left. eauto.
  - right. split; [done|]. split; eauto.
Qed.

(** The record found for a phone number that is no local id and no
    account identifier holds that phone number. *)
Lemma find_holdsE164 (h : list ConversationModel) (P : string) (a : nat) :
  notIdNorUuid conversations h P →
  find h P conversations = Some a →
  holdsE164 conversations h a P.
Proof.
  intros Hnot Hf. apply find_Some in Hf as (Hin & c & Hc & Hm).
  split; [done|]. exists c. split; [done|].
  destruct (Hnot a c Hin Hc) as [Hid Hu].
  apply matches_spec in Hm as [?|[?|?]]; done.
Qed.

(** One merge keeps phone numbers and account identifiers unique, when
    the observed phone number is no local id and no account identifier. *)
Lemma mergedHeap_unique (P aci : string) (h : list ConversationModel) :
  P ≠ "" →
  unique conversations h →
  notIdNorUuid conversations h P →
  unique conversations (mergedHeap conversations P aci h).
Proof.
  intros HP [HuE HuU] Hnot. unfold mergedHeap.
  destruct (find h P conversations) as [a|] eqn:Ha; [|done].
  pose proof (find_holdsE164 h P a Hnot Ha) as HaP.
  destruct (find h (toLowerCase aci) conversations) as [b|] eqn:Hb.
  - case_bool_decide as Hab; [done|].
    assert (Hold : ∀ r p,
              holdsE164 conversations
                (alter (updateE164 P) b (alter unset_e164 a h)) r p →
              (r = b ∧ p = P) ∨ (r ≠ a ∧ holdsE164 conversations h r p)).
    { intros r p H.
      apply holdsE164_alter in H as [(-> & c & Hc & He) | (Hrb & H)].
      - left. split; [done|]. cbn in He. congruence.
      - apply holdsE164_alter in H as [(-> & c & Hc & He) | (Hra & H)]; [done|].
        by right. }
    split.
    + intros r1 r2 p Hp H1 H2.
      apply Hold in H1 as [[-> ->] | [Hr1 H1]], H2 as [[-> Hp2] | [Hr2 H2]].
      * done.
      * destruct Hr2. by apply (HuE r2 a P).
      * subst p. destruct Hr1. by apply (HuE r1 a P).
      * by apply (HuE r1 r2 p).
    + assert (Hold' : ∀ r u,
                holdsUuid conversations
                  (alter (updateE164 P) b (alter unset_e164 a h)) r u →
                holdsUuid conversations h r u).
      { intros r u H.
        apply holdsUuid_alter in H as [(-> & c & Hc & He) | (Hrb & H)].
        - apply lookup_alter_Some in Hc as [(Heq & c0 & Hc0 & ->) | (_ & Hc)].
          + by destruct Hab.
          + apply find_Some in Hb as [Hin _]. split; [done|]. eauto.
        - apply holdsUuid_alter in H as [(-> & c & Hc & He) | (Hra & H)]; [|done].
          apply find_Some in Ha as [Hin _]. split; [done|]. eauto. }
      intros r1 r2 u Hu H1 H2. apply (HuU r1 r2 u); auto.
  - split.
    + assert (Hold : ∀ r p,
                holdsE164 conversations
                  (alter (updateUuid (toLowerCase aci)) a h) r p →
                holdsE164 conversations h r p).
      { intros r p H.
        apply holdsE164_alter in H as [(-> & c & Hc & He) | (Hra & H)]; [|done].
        destruct HaP as [Hin _]. split; [done|]. eauto. }
      intros r1 r2 p Hp H1 H2. apply (HuE r1 r2 p); auto.
    + assert (Hold : ∀ r u,
                holdsUuid conversations
                  (alter (updateUuid (toLowerCase aci)) a h) r u →
                r = a ∨ (r ≠ a ∧ u ≠ toLowerCase aci
                         ∧ holdsUuid conversations h r u)).
      { intros r u H.
        apply holdsUuid_alter in H as [(-> & c & Hc & He) | (Hra & H)];
          [by left|].
        right. split; [done|]. split; [|done].
        intros ->. destruct H as (Hin & c & Hc & He).
        pose proof (find_None _ _ _ Hb r c Hin Hc) as Hm.
        assert (matches (toLowerCase aci) c = true); [|congruence].
        apply matches_spec. auto. }
      intros r1 r2 u Hu H1 H2.
      pose proof H1 as H1'. pose proof H2 as H2'.
      apply Hold in H1 as [-> | (Hr1 & Hu1 & H1)],
            H2 as [-> | (Hr2 & Hu2 & H2)].
      * done.
      * apply holdsUuid_alter in H1' as [(_ & c & Hc & He) | (? & _)]; [|done].
        cbn in He. rewrite toLowerCase_toLowerCase in He. congruence.
      * apply holdsUuid_alter in H2' as [(_ & c & Hc & He) | (? & _)]; [|done].
        cbn in He. rewrite toLowerCase_toLowerCase in He. congruence.
      * by apply (HuU r1 r2 u).
Qed.

(** One merge keeps a string apart from local ids and account
    identifiers, when it is not the account identifier observed. *)
Lemma mergedHeap_notIdNorUuid (P aci k : string) (h : list ConversationModel) :
  toLowerCase aci ≠ k →
  notIdNorUuid conversations h k →
  notIdNorUuid conversations (mergedHeap conversations P aci h) k.
Proof.
  intros Hk Hnot. unfold mergedHeap.
  destruct (find h P conversations) as [a|]; [|done].
  destruct (find h (toLowerCase aci) conversations) as [b|].
  - case_bool_decide; [done|]. intros r c Hin Hc.
    apply lookup_alter_Some in Hc as [(-> & c0 & Hc0 & ->) | (_ & Hc)].
    + apply lookup_alter_Some in Hc0 as [(-> & c1 & Hc1 & ->) | (_ & Hc0)].
      * done.
      * apply (Hnot b c0 Hin Hc0).
    + apply lookup_alter_Some in Hc as [(-> & c1 & Hc1 & ->) | (_ & Hc)].
      * apply (Hnot a c1 Hin Hc1).
      * apply (Hnot r c Hin Hc).
  - intros r c Hin Hc.
    apply lookup_alter_Some in Hc as [(-> & c0 & Hc0 & ->) | (_ & Hc)].
    + destruct (Hnot a c0 Hin Hc0) as [Hid _]. split; [done|]. cbn.
      rewrite toLowerCase_toLowerCase. congruence.
    + apply (Hnot r c Hin Hc).
Qed.

Lemma merge_unique (h : list ConversationModel) (o : Observation) :
  unique conversations h →
  notIdNorUuid conversations h (observed_e164 o) →
  unique conversations (merge conversations h o).
Proof.
  intros Hu Hnot. destruct (merge_heap h o) as [-> | [HP ->]]; [done|].
  by apply mergedHeap_unique.
Qed.

Lemma merge_notIdNorUuid (h : list ConversationModel) (o : Observation) (k : string) :
  toLowerCase (observed_aci o) ≠ k →
  notIdNorUuid conversations h k →
  notIdNorUuid conversations (merge conversations h o) k.
Proof.
  intros Hk Hnot. destruct (merge_heap h o) as [-> | [HP ->]]; [done|].
  by apply mergedHeap_notIdNorUuid.
Qed.

(** C3, as amended. Starting from a state in which no two records hold
    the same non-empty phone number and no two hold the same non-empty
    account identifier, the same is true after any sequence of merges,
    provided that no observed phone number is a record's local id, a
    record's account identifier or an observed account identifier. *)
Theorem mergeAll_keeps_unique (os : list Observation) (h : list ConversationModel) :
  unique conversations h →
  apart conversations h os →
  unique conversations (mergeAll conversations os h).
Proof.
  revert h. induction os as [|o os IH]; intros h Hu Hap; [done|].
  cbn [mergeAll fold_left]. apply IH.
  - apply merge_unique; [done|]. apply (Hap o). left.
  - intros o1 Ho1. destruct (Hap o1) as [Hnot Hne]; [by right|]. split.
    + apply merge_notIdNorUuid; [|done]. apply Hne. left.
    + intros o' Ho'. apply Hne. by right.
Qed.


(** C5, as amended. On a state in which no two records hold the same
    phone number, for an observation whose phone number is no record's
    local id and no record's account identifier and whose lowercased
    account identifier is no record's phone number, merging twice leaves
    the state that merging once leaves. *)
Theorem merge_idempotent (h : list ConversationModel) (o : Observation) :
  uniqueE164 conversations h →
  notIdNorUuid conversations h (observed_e164 o) →
  notE164 conversations h (toLowerCase (observed_aci o)) →
  merge conversations (merge conversations h o) o = merge conversations h o.
Proof.
  intros HuE Hnot HnotE.
  destruct (merge_heap h o) as [Hsame | [HP Hm]]; [by rewrite !Hsame|].
  rewrite Hm.
  destruct (merge_heap (mergedHeap conversations (observed_e164 o) (observed_aci o) h) o)
    as [-> | [_ ->]]; [done|].
  set (P := observed_e164 o) in *. set (n := toLowerCase (observed_aci o)) in *.
  unfold mergedHeap at 2 3. fold n.
  destruct (find h P conversations) as [a|] eqn:Ha; [|unfold mergedHeap; fold n; by rewrite Ha].
  pose proof (find_holdsE164 h P a Hnot Ha) as HaP.
  destruct (find_Some _ _ _ _ Ha) as (Hina & ca & Hca & Hma).
  destruct (find h n conversations) as [b|] eqn:Hb.
  - case_bool_decide as Hab.
    { unfold mergedHeap. fold n. rewrite Ha, Hb. by rewrite bool_decide_eq_true_2. }
    destruct (find_Some _ _ _ _ Hb) as (Hinb & cb & Hcb & Hmb).
    set (h' := alter (updateE164 P) b (alter unset_e164 a h)).
    assert (Hb' : h' !! b = Some (updateE164 P cb)).
    { unfold h'. by rewrite list_lookup_alter_eq, list_lookup_alter_ne, Hcb. }
    assert (HfP : find h' P conversations = Some b).
    { apply (find_only h' P conversations b (updateE164 P cb)); [done|done| |].
      - apply matches_spec. cbn. auto.
      - intros r c' Hin Hc' Hm'. unfold h' in Hc'.
        apply lookup_alter_Some in Hc' as [(-> & _) | (Hrb & Hc')]; [done|].
        apply lookup_alter_Some in Hc' as [(-> & c0 & Hc0 & ->) | (Hra & Hc')].
        + destruct (Hnot a c0 Hin Hc0) as [Hid Hu].
          apply matches_spec in Hm' as [?|[?|?]]; done.
        + destruct (Hnot r c' Hin Hc') as [Hid Hu].
          apply matches_spec in Hm' as [?|[He|?]]; [done| |done].
          destruct Hra. apply (HuE r a P); [done| |done].
          split; [done|]. eauto. }
    assert (Hfn : find h' n conversations = Some b).
    { apply (find_stable h h' n conversations b Hb).
      - intros r c' Hin Hc' Hm'. unfold h' in Hc'.
        apply lookup_alter_Some in Hc' as [(-> & _) | (Hrb & Hc')]; [eauto|].
        apply lookup_alter_Some in Hc' as [(-> & c0 & Hc0 & ->) | (Hra & Hc')].
        + exists c0. split; [done|].
          apply matches_spec in Hm'. apply matches_spec. cbn in Hm'.
          destruct Hm' as [?|[?|?]]; auto; done.
        + eauto.
      - exists (updateE164 P cb). split; [done|].
        apply matches_spec in Hmb. apply matches_spec. cbn.
        destruct Hmb as [?|[He|?]]; auto.
        by destruct (HnotE b cb Hinb Hcb). }
    unfold mergedHeap. fold n. fold h'. rewrite HfP, Hfn.
    by rewrite bool_decide_eq_true_2.
  - set (h' := alter (updateUuid n) a h).
    assert (Ha' : h' !! a = Some (updateUuid n ca)).
    { unfold h'. by rewrite list_lookup_alter_eq, Hca. }
    assert (HfP : find h' P conversations = Some a).
    { apply (find_stable h h' P conversations a Ha).
      - intros r c' Hin Hc' Hm'. unfold h' in Hc'.
        apply lookup_alter_Some in Hc' as [(-> & _) | (Hra & Hc')]; eauto.
      - exists (updateUuid n ca). split; [done|].
        destruct HaP as (_ & c & Hc & He). simplify_eq.
        apply matches_spec. cbn. auto. }
    assert (Hfn : find h' n conversations = Some a).
    { apply (find_only h' n conversations a (updateUuid n ca)); [done|done| |].
      - apply matches_spec. right. right. cbn. subst n.
        by rewrite toLowerCase_toLowerCase.
      - intros r c' Hin Hc' Hm'. unfold h' in Hc'.
        apply lookup_alter_Some in Hc' as [(-> & _) | (Hra & Hc')]; [done|].
        pose proof (find_None _ _ _ Hb r c' Hin Hc'). congruence. }
    unfold mergedHeap. fold n. fold h'. rewrite HfP, Hfn.
    by rewrite bool_decide_eq_true_2.
Qed.

End Find.

Ltac by_reference :=
  repeat match goal with
         | H : _ !! ?r = Some _ |- _ =>
             is_var r; destruct r as [|r]; cbn in H; simplify_eq/=
         | H : [] !! _ = Some _ |- _ => by rewrite lookup_nil in H
         end.

Lemma alice_bob_unique : unique [0; 1] [alice; bob].
Proof.
  split; intros r1 r2 k Hk (_ & c1 & Hc1 & H1) (_ & c2 & Hc2 & H2);
    by_reference; done.
Qed.

Lemma alice_bob_apart : apart [0; 1] [alice; bob] [seen].
Proof.
  intros o Ho. apply list_elem_of_singleton in Ho as ->. split.
  - intros r c _ Hc. by_reference; done.
  - intros o' Ho'. apply list_elem_of_singleton in Ho' as ->. done.
Qed.

Lemma mergeAll_keeps_unique_witness :
  unique [0; 1] (mergeAll [0; 1] [seen] [alice; bob]).
Proof.
  apply (mergeAll_keeps_unique [0; 1] [seen] [alice; bob]).
  - apply alice_bob_unique.
  - apply alice_bob_apart.
Defined.

(** C3 fails as stated. A record whose local id is a phone number is
    what [get] finds for that number, ahead of the record that holds the
    number: the merge then gives the number to a second record. The state
    before is unique and the state after is not. *)
Lemma merge_breaks_unique :
  let legacy := mkConversation "+13215559876" None (Some "aaaa") None in
  let h := [legacy; alice; bob] in
  unique [0; 1; 2] h
  ∧ ¬ unique [0; 1; 2] (mergeAll [0; 1; 2] [seen] h).
Proof.
  cbn zeta. split.
  - split; intros r1 r2 k Hk (_ & c1 & Hc1 & H1) (_ & c2 & Hc2 & H2);
      by_reference; done.
  - intros [HuE _].
    assert (H : 1 = 2); [|done].
    apply (HuE 1 2 "+13215559876"); [done| |].
    + split; [set_solver|]. by eexists.
    + split; [set_solver|]. by eexists.
Qed.



Lemma merge_idempotent_witness :
  merge [0; 1] (merge [0; 1] [alice; bob] seen) seen
  = merge [0; 1] [alice; bob] seen.
Proof.
  apply (merge_idempotent [0; 1] [alice; bob] seen).
  - apply alice_bob_unique.
  - apply alice_bob_apart. left.
  - intros r c _ Hc. by_reference; done.
Defined.

(** C5 fails as stated, in three ways. Two records hold the same phone
    number: the first merge strips it from one and the second merge from
    the other. A record's account identifier is the observed phone
    number: the first merge overwrites it, and the second merge finds
    another record for the phone number. A record's phone number is the
    observed account identifier: the first merge overwrites it, and the
    second merge finds no record for the account identifier. Each time
    the state after two merges is not the state after one. *)
Lemma merge_twice_differs :
  let twice ctl h o := merge ctl (merge ctl h o) o in
  let alice' := mkConversation "c" (Some "+13215559876") None None in
  twice [0; 1; 2] [alice; alice'; bob] seen
    ≠ merge [0; 1; 2] [alice; alice'; bob] seen
  ∧ (let odd := mkConversation "x" None (Some "+13215559876") None in
     twice [0; 1] [odd; alice] seen ≠ merge [0; 1] [odd; alice] seen)
  ∧ (let odd := mkConversation "y" (Some "bbbb") None None in
     twice [0; 1] [odd; alice] seen ≠ merge [0; 1] [odd; alice] seen).
Proof. cbn zeta. split; [|split]; by vm_compute. Qed.

End ConversationsFacts.

Module UuidLookupFacts.

Import Conversations UuidLookup.

Section Coordinator.

Variable conversationController : list nat.
Variable server : Server.
Variable now : Z.

Lemma detectUnregistered_exists (r : nat) (st : State) (c : ConversationModel) :
  heap st !! r = Some c →
  checkAccountExistence server (uuid c) ≠ Resolved false →
  (detectUnregistered server now r st).1 = Returned tt
  ∧ heap (detectUnregistered server now r st).2 = heap st.
Proof.
  intros Hc Hcheck. unfold detectUnregistered, emit, onHeap, call. run.
  rewrite Hc. cbn.
  destruct (checkAccountExistence server (uuid c)) as [[]|[message]];
    by cbn.
Qed.

Lemma detectUnregistered_missing (r : nat) (st : State) (c : ConversationModel) :
  heap st !! r = Some c →
  checkAccountExistence server (uuid c) = Resolved false →
  (detectUnregistered server now r st).1 = Returned tt
  ∧ heap (detectUnregistered server now r st).2
    = alter (markUnregistered now) r (heap st).
Proof.
  intros Hc Hcheck. unfold detectUnregistered, emit, onHeap, call. run.
  rewrite Hc. cbn. by rewrite Hcheck.
Qed.

(** The reconciliation of one candidate that holds an account identifier
    and for which the lookup reports none: whether the existence check
    reports that the account exists or fails, and also when the batch of
    the phone number failed, the record is unchanged. *)
Lemma omission_keeps_uuid (results : gmap string LookupResult)
    (failed : list string) (r : nat) (p u : string) (st : State)
    (c : ConversationModel) :
  heap st !! r = Some c →
  uuid c = Some u →
  results !! p ≫= aci = None →
  checkAccountExistence server (Some u) ≠ Resolved false →
  let after := reconcile conversationController server now results failed (r, p) st in
  after.1 = Returned tt
  ∧ heap after.2 !! r = Some c
  ∧ (heap after.2 !! r ≫= uuid) = Some u
  ∧ (heap after.2 !! r ≫= discoveredUnregisteredAt) = discoveredUnregisteredAt c.
Proof.
  intros Hc Hu Hres Hcheck after.
  assert (H : after.1 = Returned tt ∧ heap after.2 = heap st).
  { subst after. unfold reconcile. case_bool_decide; [done|].
    rewrite Hres. apply (detectUnregistered_exists r st c Hc). by rewrite Hu. }
  destruct H as [Hret Hheap]. rewrite Hheap, Hc. cbn. by rewrite Hu.
Qed.


Variable limit : nat.

Lemma batches_singleton (p : string) : batches limit [p] = [[p]].
Proof. unfold batches. cbn. by destruct limit as [|[|k]]. Qed.

(** A run on a single candidate that has a phone number: one lookup of
    that number, then the reconciliation of the candidate. *)
Lemma single_candidate (r : nat) (p : string) (st : State) (c : ConversationModel) :
  heap st !! r = Some c → e164 c = Some p → p ≠ "" →
  let looked := lookupBatches server [[p]] st in
  updateConversationsWithUuidLookup conversationController server limit now [r] st
  = match looked.1 with
    | Returned found =>
        (reconcile conversationController server now found.1 found.2 (r, p)
         ≫= λ _, mret tt) looked.2
    | Threw e => (Threw e, looked.2)
    end.
Proof.
  intros Hc Hp Hne. unfold updateConversationsWithUuidLookup, candidates.
  cbv [mbind M_mbind M_bind gets]. cbn [omap list_omap].
  rewrite Hc. cbn [mbind option_bind]. rewrite Hp.
  assert (Ht : truthy (Some p) = true).
  { unfold truthy. by destruct (String.eqb_spec p ""). }
  rewrite Ht. cbn [fmap list_fmap snd]. rewrite batches_singleton.
  cbn zeta. destruct (lookupBatches server [[p]] st) as [[found|e] st1]; [|done].
  cbn [reconcileAll]. reflexivity.
Qed.

Lemma lookupBatches_singleton (p : string) (st : State) :
  ∃ results failed st1,
    lookupBatches server [[p]] st = (Returned (results, failed), st1)
    ∧ heap st1 = heap st
    ∧ match cdsLookup server [p] with
      | Resolved found => results = found ∧ failed = []
      | Rejected _ => results = ∅ ∧ failed = [p]
      end.
Proof.
  unfold lookupBatches, lookupBatch, emit. run.
  destruct (cdsLookup server [p]) as [found|[message]]; cbn.
  - eexists _, _, _. split; [done|]. split; [done|].
    split; [|done]. apply (right_id_L ∅ (∪)).
  - eexists _, _, _. split; [done|]. by split.
Qed.

(** A whole run with one candidate that holds an account identifier: when
    the lookup of its phone number fails or finds no account identifier,
    and the existence check does not report that the account is gone, the
    heap is left as it was. *)
Lemma single_candidate_keeps_uuid (r : nat) (p u : string) (st : State)
    (c : ConversationModel) :
  heap st !! r = Some c → e164 c = Some p → p ≠ "" → uuid c = Some u →
  (∀ found, cdsLookup server [p] = Resolved found → found !! p ≫= aci = None) →
  checkAccountExistence server (Some u) ≠ Resolved false →
  let after :=
    updateConversationsWithUuidLookup conversationController server limit now [r] st in
  after.1 = Returned tt ∧ heap after.2 = heap st.
Proof.
  intros Hc Hp Hne Hu Hfound Hcheck. cbn zeta.
  rewrite (single_candidate r p st c Hc Hp Hne). cbn zeta.
  destruct (lookupBatches_singleton p st) as (results & failed & st1 & -> & Hh & Hl).
  cbn [fst snd]. unfold reconcile.
  destruct (cdsLookup server [p]) as [found|e] eqn:Hcds.
  - destruct Hl as [-> ->]. rewrite bool_decide_eq_false_2 by apply not_elem_of_nil.
    rewrite (Hfound found eq_refl).
    cbv [mbind M_mbind M_bind mret M_mret M_ret].
    destruct (detectUnregistered_exists r st1 c) as [Hret Hheap];
      [by rewrite Hh | by rewrite Hu|].
    destruct (detectUnregistered server now r st1) as [o st2].
    cbn in Hret, Hheap. subst o. cbn. split; [done | congruence].
  - destruct Hl as [-> ->].
    rewrite bool_decide_eq_true_2 by (by apply list_elem_of_singleton). done.
Qed.

(** A whole run with one candidate: when the lookup of its phone number
    finds no account identifier and the existence check reports that the
    account is gone, the candidate is marked unregistered. *)
Lemma single_candidate_marked_unregistered (r : nat) (p : string) (st : State)
    (c : ConversationModel) (found : gmap string LookupResult) :
  heap st !! r = Some c → e164 c = Some p → p ≠ "" →
  cdsLookup server [p] = Resolved found → found !! p ≫= aci = None →
  checkAccountExistence server (uuid c) = Resolved false →
  let after :=
    updateConversationsWithUuidLookup conversationController server limit now [r] st in
  after.1 = Returned tt
  ∧ heap after.2 !! r = Some (mkConversation (id c) (e164 c) None (Some now)).
Proof.
  intros Hc Hp Hne Hcds Hfound Hcheck. cbn zeta.
  rewrite (single_candidate r p st c Hc Hp Hne). cbn zeta.
  destruct (lookupBatches_singleton p st) as (results & failed & st1 & -> & Hh & Hl).
  rewrite Hcds in Hl. destruct Hl as [-> ->].
  cbn [fst snd]. unfold reconcile.
  rewrite bool_decide_eq_false_2 by apply not_elem_of_nil. rewrite Hfound.
  cbv [mbind M_mbind M_bind mret M_mret M_ret].
  destruct (detectUnregistered_missing r st1 c) as [Hret Hheap];
    [by rewrite Hh | done|].
  destruct (detectUnregistered server now r st1) as [o st2].
  cbn in Hret, Hheap. subst o. cbn. split; [done|].
  by rewrite Hheap, Hh, list_lookup_alter_eq, Hc.
Qed.










End Coordinator.

Example does_nothing_on_an_empty_array :
  run_lookup [] (answering ∅ false) [] [] = (Returned tt, mkState [] []).
Proof. reflexivity. Qed.

Example does_nothing_without_E164s :
  let h := [mkConversation "x" None None None;
            mkConversation "y" None (Some "yyyy") None] in
  run_lookup [] (answering ∅ false) [0; 1] h = (Returned tt, mkState h []).
Proof. reflexivity. Qed.

Example updates_conversations_with_their_UUID :
  let found : gmap string LookupResult :=
    {[ "+13215559876" := mkLookupResult (Some "1111") None;
       "+16545559876" := mkLookupResult (Some "2222") None ]} in
  let after := run_lookup [0; 1] (answering found false) [0; 1] [erin; dave] in
  after.1 = Returned tt
  ∧ (heap after.2 !! 0 ≫= uuid) = Some "1111"
  ∧ (heap after.2 !! 1 ≫= uuid) = Some "2222".
Proof. by vm_compute. Qed.

Example marks_unregistered_without_UUID :
  let after := run_lookup [0] (answering ∅ false) [0] [erin] in
  (heap after.2 !! 0 ≫= discoveredUnregisteredAt) = Some noon.
Proof. by vm_compute. Qed.

Example keeps_existing_UUID_when_account_exists :
  let after := run_lookup [0] (answering ∅ true) [0] [carol] in
  heap after.2 = [carol].
Proof. by vm_compute. Qed.

Example removes_UUID_when_account_does_not_exist :
  let after := run_lookup [0] (answering ∅ false) [0] [carol] in
  heap after.2
  = [mkConversation "c" (Some "+13215559876") None (Some noon)].
Proof. by vm_compute. Qed.





(** In these two runs the other candidate is merged: it receives the
    account identifier that the directory has for it. *)
Example the_other_candidate_is_merged :
  let kept := run_lookup [0; 1] (answering onlyGrace true) [0; 1] [carol; grace] in
  let marked := run_lookup [0; 1] (answering onlyGrace false) [0; 1] [carol; grace] in
  kept.1 = Returned tt
  ∧ (heap kept.2 !! 1 ≫= uuid) = Some "1111"
  ∧ marked.1 = Returned tt
  ∧ (heap marked.2 !! 1 ≫= uuid) = Some "1111".
Proof. by vm_compute. Qed.


(** Each part of [unreferenced] is needed for the account identifier
    "tttt" of the first record to be kept, the existence check reporting
    that the account exists: the record loses it when a reported phone
    number is its account identifier, and when a reported account
    identifier is its id, its phone number or its account identifier (its
    id being a reported phone number is the case of [frank]). In each run
    the other parts hold. *)
Example unreferenced_is_needed_to_keep_uuid :
  let uuidAfter server conversations h :=
    heap (run_lookup [0; 1; 2] server conversations h).2 !! 0 ≫= uuid in
  uuidAfter (answering {[ "+2" := mkLookupResult (Some "1111") None ]} true) [1]
    [mkConversation "t" (Some "+1") (Some "+2") None; heidi; ivan]
  = Some "1111"
  ∧ uuidAfter (answering (chained "1111") true) [1; 2; 2]
      [mkConversation "1111" (Some "+1") (Some "tttt") None; heidi; ivan]
    = Some "+2"
  ∧ uuidAfter (answering (chained "+1") true) [1; 1]
      [mkConversation "t" (Some "+1") (Some "tttt") None; heidi; ivan]
    = Some "+1"
  ∧ uuidAfter (answering (chained "TTTT") true) [1; 2; 2]
      [mkConversation "t" (Some "+1") (Some "tttt") None; heidi; ivan]
    = Some "+2".
Proof. by vm_compute. Qed.


(** Each part of [unreferenced] is needed for a candidate to be marked
    when the existence check reports that its account does not exist: at
    the end of the run the first record holds an account identifier when a
    reported phone number is its account identifier, and when a reported
    account identifier is its id, its phone number or its account
    identifier (its id being a reported phone number is the case of
    [frank]). In each run the other parts hold. A run that throws for an
    earlier candidate, here one that the controller does not know, does
    not reach the later ones. *)
Example unreferenced_is_needed_to_mark :
  let uuidAfter server conversations h :=
    heap (run_lookup [0; 1; 2] server conversations h).2 !! 0 ≫= uuid in
  let found : gmap string LookupResult :=
    {[ "+2" := mkLookupResult (Some "1111") None ]} in
  let thrown :=
    run_lookup [0] (answering found false) [1; 0]
      [mkConversation "t" (Some "+1") (Some "tttt") None; heidi] in
  uuidAfter
    (mkServer (λ _, Resolved found)
       (λ known, Resolved (bool_decide (known = Some "1111")))) [1; 0]
    [mkConversation "t" (Some "+1") (Some "+2") None; heidi; ivan]
  = Some "1111"
  ∧ uuidAfter (answering (chained "1111") false) [0; 1; 2; 2]
      [mkConversation "1111" (Some "+1") None None; heidi; ivan]
    = Some "+2"
  ∧ uuidAfter (answering (chained "+1") false) [0; 1; 1]
      [mkConversation "t" (Some "+1") (Some "tttt") None; heidi; ivan]
    = Some "+1"
  ∧ uuidAfter (answering (chained "TTTT") false) [1; 0; 1]
      [mkConversation "t" (Some "+1") (Some "tttt") None; heidi; ivan]
    = Some "tttt"
  ∧ thrown.1 ≠ Returned tt
  ∧ heap thrown.2 !! 0 = Some (mkConversation "t" (Some "+1") (Some "tttt") None).
Proof. by vm_compute. Qed.

End UuidLookupFacts.

Module AccountsFacts.

Import UuidLookup Accounts.

(** The thunk returns on every path: whatever the lookup or the merge
    throws is caught. *)
Lemma checkForAccount_returns (world : World) (phoneNumber : string) (st : Store) :
  (checkForAccount world phoneNumber st).1 = Returned tt.
Proof.
  unfold checkForAccount, dispatch, perform, await, fromOutcome.
  destruct (server world); [|done]. cbn [negb].
  destruct (knownUuid (conversationUuid world phoneNumber)) as [u|]; run; [done|].
  all: case_bool_decide; [done|].
  all: destruct (getUuidsForE164s world [phoneNumber]) as [found|e]; cbn; [|done].
  all: destruct (found !! phoneNumber) as [pair|]; cbn; [|done].
  all: by destruct (maybeMergeContacts world pair phoneNumber).
Qed.

(** A phone number that is a key of the accounts, whatever its value, is
    not looked up. *)
Lemma checkForAccount_existing (world : World) (phoneNumber : string) (st : Store) :
  is_Some (accounts (getState st) !! phoneNumber) →
  lookedUp (performed world phoneNumber st) = false.
Proof.
  intros Hex. unfold performed, checkForAccount, dispatch, perform.
  destruct (server world); cbn [negb]; run.
  2: { by rewrite drop_app_length. }
  destruct (knownUuid (conversationUuid world phoneNumber)) as [u|]; run.
  - rewrite <- app_assoc. by rewrite drop_app_length.
  - rewrite bool_decide_eq_true_2 by done. cbn. by rewrite drop_app_length.
Qed.

(** C8, as amended. When the remote lookup fails for a phone number that
    has no conversation with an account identifier and is not yet a key of
    the accounts, the thunk does not throw: it logs the error and
    dispatches an update that records the phone number with no account
    identifier. From then on the phone number is a key of the accounts,
    and a later run of the thunk for it, in any state of the world,
    returns without performing the remote lookup. *)
Theorem lookup_failure_is_absorbed_and_recorded
    (world world' : World) (phoneNumber : string) (st : Store) (e : Error) :
  server world = true →
  knownUuid (conversationUuid world phoneNumber) = None →
  accounts (getState st) !! phoneNumber = None →
  getUuidsForE164s world [phoneNumber] = Rejected e →
  let first := checkForAccount world phoneNumber st in
  first.1 = Returned tt
  ∧ performed world phoneNumber st
    = [LogInfo ("checkForAccount: looking " +:+ phoneNumber +:+ " up on server");
       LookedUp [phoneNumber];
       LogError ("checkForAccount: " +:+ toLogFormat e);
       Dispatched (AccountsUpdate phoneNumber None)]
  ∧ accounts (getState first.2)
    = <[phoneNumber := None]> (accounts (getState st))
  ∧ (checkForAccount world' phoneNumber first.2).1 = Returned tt
  ∧ lookedUp (performed world' phoneNumber first.2) = false.
Proof.
  intros Hserver Hconv Hnew Hfail first.
  assert (Hfirst : first.2
            = mkStore (mkAccounts (<[phoneNumber := None]> (accounts (getState st))))
                (effects st ++
                 [LogInfo ("checkForAccount: looking " +:+ phoneNumber +:+ " up on server");
                  LookedUp [phoneNumber];
                  LogError ("checkForAccount: " +:+ toLogFormat e);
                  Dispatched (AccountsUpdate phoneNumber None)])).
  { subst first. unfold checkForAccount, dispatch, perform, await.
    rewrite Hserver, Hconv. cbn [negb]. run.
    rewrite Hnew, bool_decide_eq_false_2 by (by intros [? ?]).
    rewrite Hfail. cbn. by rewrite <- !app_assoc. }
  split; [apply checkForAccount_returns|].
  split; [unfold performed; fold first; rewrite Hfirst; cbn;
          by rewrite drop_app_length|].
  split; [by rewrite Hfirst|].
  split; [apply checkForAccount_returns|].
  apply checkForAccount_existing. rewrite Hfirst. cbn.
  rewrite lookup_insert_eq. by eexists.
Qed.

Lemma lookup_failure_is_absorbed_and_recorded_witness :
  let first := checkForAccount offline "+13215559876" (mkStore getEmptyState []) in
  first.1 = Returned tt
  ∧ performed offline "+13215559876" (mkStore getEmptyState [])
    = [LogInfo "checkForAccount: looking +13215559876 up on server";
       LookedUp ["+13215559876"];
       LogError "checkForAccount: rate limited";
       Dispatched (AccountsUpdate "+13215559876" None)]
  ∧ accounts (getState first.2) = <["+13215559876" := None]> ∅
  ∧ (checkForAccount online "+13215559876" first.2).1 = Returned tt
  ∧ lookedUp (performed online "+13215559876" first.2) = false.
Proof.
  apply (lookup_failure_is_absorbed_and_recorded offline online "+13215559876"
           (mkStore getEmptyState []) (mkError "rate limited"));
    reflexivity.
Defined.

(** C8 fails as stated. After a run in which the lookup of a phone number
    failed, a later run for the same phone number, in a world in which the
    lookup would succeed, dispatches a no-op and does not look the number
    up again. *)
Lemma failed_lookup_is_not_retried :
  let first := checkForAccount offline "+13215559876" (mkStore getEmptyState []) in
  lookedUp (performed offline "+13215559876" (mkStore getEmptyState [])) = true
  ∧ performed online "+13215559876" first.2 = [Dispatched NOOP]
  ∧ lookedUp (performed online "+13215559876" first.2) = false.
Proof. cbn zeta. split; [|split]; by vm_compute. Qed.

End AccountsFacts.

Module MessageCounterMore.

Import MessageCounter.
Local Open Scope Z_scope.

Lemma integer_round_trip (n : number) : stringToInteger (integerToString n) = n.
Proof.
  destruct n as [z|]; [|reflexivity].
  unfold stringToInteger, integerToString.
  rewrite NilZero.isi.
  - by rewrite DecimalZ.of_to.
  - destruct z as [|p|p]; [done| |done].
    intros [= H]. by apply DecimalPos.Unsigned.to_uint_nonnil in H.
  - destruct z as [|p|p]; [done|done|].
    intros [= H]. by apply DecimalPos.Unsigned.to_uint_nonnil in H.
Qed.

Lemma increment_step (z : Z) (st : State) :
  receivedAtCounter st = VNumber (Num z) →
  - twoTo53 ≤ z < twoTo53 →
  incrementMessageCounter st
  = (Returned (VNumber (Num (z + 1))),
     mkState (VNumber (Num (z + 1))) (lastReceivedAtCounter st) true (logged st)).
Proof.
  intros Hz Hb. unfold incrementMessageCounter, debouncedUpdateLastReceivedAt.
  run. rewrite Hz. cbn [strictEquals negb].
  by rewrite (MessageCounterFacts.plusOne_exact z Hb).
Qed.

(** At [2^53] the counter stops counting: [2^53 + 1] is not a double, the
    sum rounds back to [2^53], and every further call returns [2^53]
    again. *)
Lemma increments_stall_at_twoTo53 :
  (increments 3 (mkState (VNumber (Num (twoTo53 - 1))) None false [])).1
  = [VNumber (Num twoTo53); VNumber (Num twoTo53); VNumber (Num twoTo53)].
Proof. by vm_compute. Qed.

(** X1. On a counter that holds the integer [z], as long as the values
    stay between [-2^53] and [2^53], where a double counts by one without
    rounding, the calls of [incrementMessageCounter] return [z + 1],
    [z + 2], ... in this order, one value per call, and [n] calls leave
    [z + n] in the counter. *)
Theorem increments_are_consecutive (n : nat) (z : Z) (st : State) :
  receivedAtCounter st = VNumber (Num z) →
  - twoTo53 ≤ z →
  z + Z.of_nat n ≤ twoTo53 →
  (increments n st).1 = (λ i, VNumber (Num (z + Z.of_nat i))) <$> seq 1 n
  ∧ receivedAtCounter (increments n st).2 = VNumber (Num (z + Z.of_nat n)).
Proof.
  revert z st. induction n as [|n IH]; intros z st Hz Hlo Hhi.
  - cbn. split; [done|]. rewrite Hz. do 2 f_equal. lia.
  - cbn [increments]. rewrite (increment_step z st Hz) by lia.
    set (st' := mkState (VNumber (Num (z + 1))) (lastReceivedAtCounter st) true (logged st)).
    destruct (IH (z + 1) st' eq_refl) as [Hvs Hc]; [lia|lia|].
    destruct (increments n st') as [vs st'']. cbn [fst snd] in *. split.
    + cbn [seq fmap list_fmap]. f_equal.
      rewrite Hvs, <- (seq_shift n 1). change (map S) with (fmap (M:=list) S).
      rewrite <- list_fmap_compose.
      apply list_fmap_ext. intros _ i _. cbn. do 2 f_equal. lia.
    + rewrite Hc. do 2 f_equal. lia.
Qed.

Lemma increments_are_consecutive_witness :
  (increments 3 (mkState (VNumber (Num 41)) None false [])).1
  = (λ i, VNumber (Num (41 + Z.of_nat i))) <$> seq 1 3
  ∧ receivedAtCounter (increments 3 (mkState (VNumber (Num 41)) None false [])).2
    = VNumber (Num (41 + Z.of_nat 3)).
Proof.
  apply (increments_are_consecutive 3 41 (mkState (VNumber (Num 41)) None false []));
    [reflexivity | by vm_compute | by vm_compute].
Defined.

Lemma strictEquals_true (a b : value) : strictEquals a b = true → a = b.
Proof.
  destruct a as [|[x|]], b as [|[y|]]; cbn; try done.
  intros H. apply Z.eqb_eq in H. by subst.
Qed.

Lemma runPendingUpdate_state (N2S : number → string) (st : State) :
  runPendingUpdate N2S st
  = (Returned tt,
     if updatePending st
     then mkState (receivedAtCounter st)
            (Some (String_ N2S (receivedAtCounter st))) false (logged st)
     else st).
Proof.
  unfold runPendingUpdate, updateLastReceivedAt. run. by destruct (updatePending st).
Qed.

(** After [initializeMessageCounter] the stored item is the one found when
    the seed is equal to the stored counter, and the text of the seed
    otherwise. *)
Lemma initialize_item (S2N : string → number) (N2S : number → string)
    (dbCounter : value) (now : Z) (st : State) :
  receivedAtCounter st = VUndefined →
  let stored := Number S2N (lastReceivedAtCounter st) in
  let after := (initializeMessageCounter S2N N2S dbCounter now st).2 in
  lastReceivedAtCounter after
  = (if strictEquals stored (receivedAtCounter after)
     then lastReceivedAtCounter st
     else Some (String_ N2S (receivedAtCounter after)))
  ∧ updatePending after = updatePending st
  ∧ isNumber (receivedAtCounter after) = true.
Proof.
  intros Hu. cbn zeta.
  unfold initializeMessageCounter, initialize_begin, initialize_resume, seedCounter.
  run. rewrite Hu. cbn.
  set (stored := Number S2N (lastReceivedAtCounter st)).
  assert (Hs : isNumber stored = true) by (subst stored; by destruct (lastReceivedAtCounter st)).
  rewrite Hs, andb_true_r.
  destruct (isNumber dbCounter) eqn:Hd; cbn.
  - assert (Hm : isNumber (Math_max dbCounter stored) = true).
    { unfold Math_max. by destruct (ToNumber dbCounter), (ToNumber stored). }
    destruct (strictEquals (Math_max dbCounter stored) stored); cbn;
      destruct (strictEquals stored (Math_max dbCounter stored)) eqn:He; cbn;
      rewrite ?He; by repeat split.
  - destruct (strictEquals stored stored) eqn:He; cbn; rewrite ?He; by repeat split.
Qed.

Lemma String_round_trip (S2N : string → number) (N2S : number → string) (v : value) :
  (∀ n, S2N (N2S n) = n) → isNumber v = true →
  Number S2N (Some (String_ N2S v)) = v.
Proof. intros Hrt Hv. destruct v as [|n]; [done|]. cbn. by rewrite Hrt. Qed.

Lemma initialize_current (S2N : string → number) (N2S : number → string)
    (dbCounter : value) (now : Z) (st : State) :
  receivedAtCounter st = VUndefined →
  (∀ n, S2N (N2S n) = n) →
  let after := (initializeMessageCounter S2N N2S dbCounter now st).2 in
  isNumber (receivedAtCounter after) = true
  ∧ Number S2N (lastReceivedAtCounter after) = receivedAtCounter after.
Proof.
  intros Hu Hrt after.
  destruct (initialize_item S2N N2S dbCounter now st Hu) as (Hitem & _ & Hnum).
  fold after in Hitem, Hnum. split; [done|]. rewrite Hitem.
  destruct (strictEquals _ _) eqn:He.
  - by apply strictEquals_true in He.
  - by apply String_round_trip.
Qed.

Lemma perform_current (S2N : string → number) (N2S : number → string)
    (c : Call) (st : State) :
  (∀ n, S2N (N2S n) = n) →
  current S2N st →
  (perform N2S c st).1 = Returned tt ∧ current S2N (perform N2S c st).2.
Proof.
  intros Hrt [Hnum Hcur].
  assert (Hflush : (runPendingUpdate N2S st).1 = Returned tt
                   ∧ current S2N (runPendingUpdate N2S st).2).
  { rewrite runPendingUpdate_state. split; [done|]. cbn.
    destruct (updatePending st) eqn:Hp.
    - split; [done|]. right. by apply String_round_trip.
    - split; [done|]. right. by destruct Hcur. }
  destruct c; [|exact Hflush|exact Hflush].
  unfold perform, incrementMessageCounter, debouncedUpdateLastReceivedAt. run.
  destruct (receivedAtCounter st) as [|n] eqn:Hc; [done|].
  destruct n; cbn; (split; [done|]); (split; [done|by left]).
Qed.

Lemma performAll_current (S2N : string → number) (N2S : number → string)
    (cs : list Call) (st : State) :
  (∀ n, S2N (N2S n) = n) →
  current S2N st →
  (performAll N2S cs st).1 = Returned tt ∧ current S2N (performAll N2S cs st).2.
Proof.
  intros Hrt. revert st. induction cs as [|c cs IH]; intros st Hcur; [done|].
  cbn [performAll]. cbv [mbind M_mbind M_bind].
  destruct (perform_current S2N N2S c st Hrt Hcur) as [Hret Hcur'].
  destruct (perform N2S c st) as [o st']. cbn in Hret, Hcur'. subst o.
  by apply IH.
Qed.

(** A flush of a state whose stored item reads as the counter unless a
    write is pending. *)
Lemma flush_current (S2N : string → number) (N2S : number → string) (st : State) :
  (∀ n, S2N (N2S n) = n) →
  current S2N st →
  (flushMessageCounter N2S st).1 = Returned tt
  ∧ updatePending (flushMessageCounter N2S st).2 = false
  ∧ receivedAtCounter (flushMessageCounter N2S st).2 = receivedAtCounter st
  ∧ Number S2N (lastReceivedAtCounter (flushMessageCounter N2S st).2)
    = receivedAtCounter st.
Proof.
  intros Hrt [Hnum Hcur]. unfold flushMessageCounter.
  rewrite runPendingUpdate_state. cbn.
  destruct (updatePending st) eqn:Hp; cbn.
  - repeat split. by apply String_round_trip.
  - repeat split; [done|]. by destruct Hcur.
Qed.





(** X4. A process that is restarted after a flush does not fall back: when
    the counter held the integer [z] at the flush, from [-2^53] and below
    [2^53], and the database of the new process reports nothing or an
    integer below [2^53], the new process seeds its counter with an
    integer that is at least [z], so that its first call of
    [incrementMessageCounter] returns more than [z]. This holds when
    [Number] reads back what [String] prints. *)
Theorem restart_after_flush_does_not_fall_back
    (S2N : string → number) (N2S : number → string)
    (dbCounter dbCounter' : value) (now now' : Z) (cs : list Call)
    (st : State) (z : Z) :
  receivedAtCounter st = VUndefined →
  (∀ n, S2N (N2S n) = n) →
  let before :=
    ((initializeMessageCounter S2N N2S dbCounter now;;
      performAll N2S cs;; flushMessageCounter N2S) st).2 in
  receivedAtCounter before = VNumber (Num z) →
  - twoTo53 ≤ z < twoTo53 →
  (dbCounter' = VUndefined ∨ ∃ d, dbCounter' = VNumber (Num d) ∧ d < twoTo53) →
  let again :=
    (initializeMessageCounter S2N N2S dbCounter' now' (restart before)).2 in
  ∃ z', receivedAtCounter again = VNumber (Num z')
        ∧ z ≤ z'
        ∧ (incrementMessageCounter again).1 = Returned (VNumber (Num (z' + 1))).
Proof.
  intros Hu Hrt before Hz Hb Hdb again.
  assert (Hcur : Number S2N (lastReceivedAtCounter before) = VNumber (Num z)).
  { subst before again. revert Hz. cbv [mbind M_mbind M_bind].
    pose proof (initialize_current S2N N2S dbCounter now st Hu Hrt) as Hcur.
    destruct (initializeMessageCounter S2N N2S dbCounter now st) as [[[]|e] st1];
      cbn in Hcur.
    - assert (Hcur1 : current S2N st1) by (destruct Hcur; split; auto).
      destruct (performAll_current S2N N2S cs st1 Hrt Hcur1) as [Hret Hcur2].
      destruct (performAll N2S cs st1) as [o st2]. cbn in Hret, Hcur2. subst o.
      destruct (flush_current S2N N2S st2 Hrt Hcur2) as (_ & _ & Hc & Hn).
      intros Hz. rewrite Hn, <- Hc. exact Hz.
    - cbn. intros Hz. destruct Hcur as [_ Hcur]. by rewrite Hcur. }
  destruct (MessageCounterFacts.initialize_seed S2N N2S dbCounter' now'
              (restart before) eq_refl) as [_ Hseed].
  fold again in Hseed. cbn [restart lastReceivedAtCounter] in Hseed.
  rewrite Hcur in Hseed.
  assert (H : ∃ z', receivedAtCounter again = VNumber (Num z')
                    ∧ z ≤ z' < twoTo53).
  { destruct Hdb as [-> | (d & -> & Hd)].
    - exists z. split; [done|lia].
    - exists (Z.max d z). split; [done|lia]. }
  destruct H as (z' & Hz' & Hle). exists z'. split; [done|]. split; [lia|].
  rewrite (increment_step z' again Hz'); [done|lia].
Qed.

Lemma restart_after_flush_does_not_fall_back_witness :
  let before :=
    ((initializeMessageCounter stringToInteger integerToString (VNumber (Num 7)) 1000;;
      performAll integerToString [Increment; Increment];;
      flushMessageCounter integerToString) (fresh (Some "5"))).2 in
  let again :=
    (initializeMessageCounter stringToInteger integerToString VUndefined 2000
       (restart before)).2 in
  ∃ z', receivedAtCounter again = VNumber (Num z')
        ∧ 9 ≤ z'
        ∧ (incrementMessageCounter again).1 = Returned (VNumber (Num (z' + 1))).
Proof.
  apply (restart_after_flush_does_not_fall_back stringToInteger integerToString
           (VNumber (Num 7)) VUndefined 1000 2000 [Increment; Increment]
           (fresh (Some "5")) 9);
    [reflexivity | apply integer_round_trip | reflexivity | by vm_compute
    | by left].
Defined.

End MessageCounterMore.

Module ConversationsMore.

Import Conversations ConversationsFacts.

Lemma truthy_toLowerCase (s : string) :
  truthy (Some (toLowerCase s)) = truthy (Some s).
Proof. by destruct s. Qed.

Section Controller.

Variable conversations : list nat.

Lemma find_first (h : list ConversationModel) (key : string) (refs : list nat) (r : nat) :
  find h key refs = Some r →
  ∃ i, refs !! i = Some r
       ∧ ∀ j r' c', (j < i)%nat → refs !! j = Some r' → h !! r' = Some c' →
                    matches key c' = false.
Proof.
  induction refs as [|r0 refs IH]; [done|]. cbn [find].
  destruct (h !! r0) as [c0|] eqn:Hc0; [destruct (matches key c0) eqn:Hm0|].
  - intros [= <-]. exists 0%nat. split; [done|]. intros j r' c' Hj. lia.
  - intros Hf. destruct (IH Hf) as (i & Hi & Hbefore). exists (S i).
    split; [done|]. intros [|j] r' c' Hj Hr' Hc'.
    + cbn in Hr'. simplify_eq. done.
    + apply (Hbefore j r' c'); [lia|done|done].
  - intros Hf. destruct (IH Hf) as (i & Hi & Hbefore). exists (S i).
    split; [done|]. intros [|j] r' c' Hj Hr' Hc'.
    + cbn in Hr'. simplify_eq.
    + apply (Hbefore j r' c'); [lia|done|done].
Qed.

(** X5. [get] returns a conversation of the controller that carries the
    key as its id, its phone number or its account identifier, and it is
    the first such conversation of the array; [get] returns nothing
    exactly when no conversation of the controller carries the key in any
    of the three fields. *)
Theorem get_returns_the_first_match (h : list ConversationModel) (key : string) :
  match find h key conversations with
  | Some r =>
      (∃ c, h !! r = Some c
            ∧ (id c = key ∨ e164 c = Some key ∨ uuid c = Some key))
      ∧ ∃ i, conversations !! i = Some r
             ∧ ∀ j r' c', (j < i)%nat → conversations !! j = Some r' →
                          h !! r' = Some c' →
                          id c' ≠ key ∧ e164 c' ≠ Some key ∧ uuid c' ≠ Some key
  | None =>
      ∀ r c, r ∈ conversations → h !! r = Some c →
             id c ≠ key ∧ e164 c ≠ Some key ∧ uuid c ≠ Some key
  end.
Proof.
  assert (Hno : ∀ c, matches key c = false →
                id c ≠ key ∧ e164 c ≠ Some key ∧ uuid c ≠ Some key).
  { intros c Hm. repeat split; intros H;
      assert (matches key c = true) by (apply matches_spec; auto); congruence. }
  destruct (find h key conversations) as [r|] eqn:Hf.
  - destruct (find_Some _ _ _ _ Hf) as (_ & c & Hc & Hm).
    split; [exists c; split; [done|]; by apply matches_spec|].
    destruct (find_first _ _ _ _ Hf) as (i & Hi & Hbefore).
    exists i. split; [done|]. intros j r' c' Hj Hr' Hc'.
    apply Hno. by apply (Hbefore j r' c').
  - intros r c Hin Hc. apply Hno. by apply (find_None _ _ _ Hf r c).
Qed.

(** The arguments of a merge are either all given and not empty, or the
    merge throws on its assertions with the heap as it was. *)
Lemma maybeMergeContacts_arguments (e164 aci reason : option string)
    (h : list ConversationModel) :
  (∃ P a rs, e164 = Some P ∧ aci = Some a ∧ reason = Some rs
             ∧ P ≠ "" ∧ a ≠ "" ∧ rs ≠ "")
  ∨ ((truthy e164 = false ∨ truthy aci = false ∨ truthy reason = false)
     ∧ ∃ e, maybeMergeContacts conversations e164 aci reason h = (Threw e, h)).
Proof.
  destruct (truthy e164) eqn:He; [|right; split; [auto|];
    unfold maybeMergeContacts, assert; rewrite He; run; eauto].
  destruct (truthy aci) eqn:Ha; [|right; split; [auto|];
    unfold maybeMergeContacts, assert; rewrite He, Ha; run; eauto].
  destruct (truthy reason) eqn:Hr; [|right; split; [auto|];
    unfold maybeMergeContacts, assert; rewrite He, Ha, Hr; run; eauto].
  left. destruct e164 as [P|], aci as [a|], reason as [rs|]; try done.
  exists P, a, rs. apply truthy_Some in He, Ha, Hr. done.
Qed.

Lemma maybeMergeContacts_outcome (P a rs : string) (h : list ConversationModel) :
  P ≠ "" → a ≠ "" → rs ≠ "" →
  (maybeMergeContacts conversations (Some P) (Some a) (Some rs) h).1
  = match find h P conversations, find h (toLowerCase a) conversations with
    | Some x, Some y => Returned (Some y)
    | Some x, None => Returned (Some x)
    | None, Some _ =>
        Threw (mkError "FakeConversationController should never get here")
    | None, None =>
        Threw (mkError "FakeConversationController is not set up for this case (at least one conversation should be found)")
    end.
Proof.
  intros HP Ha Hr. unfold maybeMergeContacts, get, assert, assert_fail, call.
  apply truthy_Some in HP, Ha, Hr. rewrite HP, Ha, Hr. run.
  destruct (find h P conversations) as [x|],
           (find h (toLowerCase a) conversations) as [y|]; cbn; try done.
  by destruct (bool_decide (x = y)).
Qed.

(** X6. [maybeMergeContacts] throws exactly when the phone number, the
    account identifier or the reason is missing or empty, or when [get]
    finds no conversation for the phone number. When it throws it has
    changed no conversation; when it returns, it returns a conversation of
    the controller. *)
Theorem maybeMergeContacts_throws_exactly_when (e164 aci reason : option string)
    (h : list ConversationModel) :
  let result := maybeMergeContacts conversations e164 aci reason h in
  ((∃ e, result.1 = Threw e)
   ↔ truthy e164 = false ∨ truthy aci = false ∨ truthy reason = false
     ∨ find h (nonNull e164) conversations = None)
  ∧ ((∃ e, result.1 = Threw e) → result.2 = h)
  ∧ (∀ r, result.1 = Returned r → ∃ x, r = Some x ∧ x ∈ conversations).
Proof.
  cbn zeta.
  destruct (maybeMergeContacts_arguments e164 aci reason h)
    as [(P & a & rs & -> & -> & -> & HP & Ha & Hr) | [Hfalse [e ->]]].
  2: { cbn. split; [|split]; [split; [tauto|eauto] | done | done]. }
  rewrite (maybeMergeContacts_outcome P a rs h HP Ha Hr).
  rewrite (maybeMergeContacts_heap conversations P a rs h HP Ha Hr).
  unfold mergedHeap. change (nonNull (Some P)) with P.
  apply truthy_Some in HP, Ha, Hr. rewrite HP, Ha, Hr.
  destruct (find h P conversations) as [x|] eqn:Hx,
           (find h (toLowerCase a) conversations) as [y|] eqn:Hy.
  - split; [|split].
    + split; [by intros [? ?] | intros [?|[?|[?|?]]]; done].
    + by intros [? ?].
    + intros r [= <-]. exists y. split; [done|]. by apply find_Some in Hy as [? _].
  - split; [|split].
    + split; [by intros [? ?] | intros [?|[?|[?|?]]]; done].
    + by intros [? ?].
    + intros r [= <-]. exists x. split; [done|]. by apply find_Some in Hx as [? _].
  - split; [|split]; [split; eauto | done | done].
  - split; [|split]; [split; eauto | done | done].
Qed.

(** X7. The account identifier of an observation counts up to the case of
    its letters: two account identifiers with the same lowercase form give
    the same merge, with the same result and the same conversations
    afterwards. *)
Theorem maybeMergeContacts_ignores_case (e164 reason : option string)
    (aci1 aci2 : string) (h : list ConversationModel) :
  toLowerCase aci1 = toLowerCase aci2 →
  maybeMergeContacts conversations e164 (Some aci1) reason h
  = maybeMergeContacts conversations e164 (Some aci2) reason h.
Proof.
  intros Hlow. unfold maybeMergeContacts.
  change (nonNull (Some aci1)) with aci1. change (nonNull (Some aci2)) with aci2.
  rewrite <- (truthy_toLowerCase aci1), <- (truthy_toLowerCase aci2), Hlow.
  done.
Qed.

(** X8. A merge calls methods on at most two conversations, the one that
    [get] finds for the phone number and the one that it finds for the
    lowercased account identifier: every other object of the heap,
    inside or outside the controller, is left as it was, and no object is
    added or removed. *)
Theorem maybeMergeContacts_touches_only_the_found
    (e164 aci reason : option string) (h : list ConversationModel) (r : nat) :
  find h (nonNull e164) conversations ≠ Some r →
  find h (toLowerCase (nonNull aci)) conversations ≠ Some r →
  let result := maybeMergeContacts conversations e164 aci reason h in
  result.2 !! r = h !! r ∧ length result.2 = length h.
Proof.
  intros Hx Hy. cbn zeta.
  destruct (maybeMergeContacts_arguments e164 aci reason h)
    as [(P & a & rs & -> & -> & -> & HP & Ha & Hr) | [_ [e ->]]]; [|done].
  rewrite (maybeMergeContacts_heap conversations P a rs h HP Ha Hr).
  unfold mergedHeap. change (nonNull (Some P)) with P in Hx.
  change (nonNull (Some a)) with a in Hy.
  destruct (find h P conversations) as [x|]; [|done].
  destruct (find h (toLowerCase a) conversations) as [y|].
  - case_bool_decide; [done|].
    rewrite !length_alter, !list_lookup_alter_ne by congruence. done.
  - rewrite !length_alter, !list_lookup_alter_ne by congruence. done.
Qed.

(** X9. [lookupOrCreate] changes no conversation and answers for a merge
    that is not made: it throws the error that [maybeMergeContacts] throws
    on the same phone number and account identifier, and otherwise
    returns the id of the conversation that [maybeMergeContacts]
    returns. *)
Theorem lookupOrCreate_answers_for_the_merge (e164 uuid : option string)
    (reason : string) (h : list ConversationModel) :
  reason ≠ "" →
  lookupOrCreate conversations e164 uuid h
  = (match (maybeMergeContacts conversations e164 uuid (Some reason) h).1 with
     | Returned r => Returned (r ≫= λ x, id <$> h !! x)
     | Threw e => Threw e
     end, h).
Proof.
  intros Hr. unfold lookupOrCreate, maybeMergeContacts, get, getId, assert,
    assert_fail, call.
  apply truthy_Some in Hr. rewrite Hr.
  destruct (truthy e164); [|by run]. destruct (truthy uuid); [|by run]. run.
  destruct (find h (nonNull e164) conversations) as [x|],
           (find h (toLowerCase (nonNull uuid)) conversations) as [y|]; cbn; try done.
  by destruct (bool_decide (x = y)).
Qed.

Lemma mergedHeap_uniqueUuid (P aci : string) (h : list ConversationModel) :
  uniqueUuid conversations h →
  uniqueUuid conversations (mergedHeap conversations P aci h).
Proof.
  intros HuU. unfold mergedHeap.
  destruct (find h P conversations) as [x|] eqn:Hx; [|done].
  destruct (find_Some _ _ _ _ Hx) as (Hinx & cx & Hcx & _).
  destruct (find h (toLowerCase aci) conversations) as [y|] eqn:Hy.
  - case_bool_decide as Hxy; [done|].
    destruct (find_Some _ _ _ _ Hy) as (Hiny & cy & Hcy & _).
    assert (Hold : ∀ r u,
              holdsUuid conversations
                (alter (updateE164 P) y (alter unset_e164 x h)) r u →
              holdsUuid conversations h r u).
    { intros r u H.
      apply holdsUuid_alter in H as [(-> & c & Hc & He) | (Hry & H)].
      - apply lookup_alter_Some in Hc as [(Heq & _) | (_ & Hc)]; [by destruct Hxy|].
        split; [done|]. eauto.
      - apply holdsUuid_alter in H as [(-> & c & Hc & He) | (Hrx & H)]; [|done].
        split; [done|]. eauto. }
    intros r1 r2 u Hu H1 H2. apply (HuU r1 r2 u); auto.
  - assert (Hold : ∀ r u,
              holdsUuid conversations
                (alter (updateUuid (toLowerCase aci)) x h) r u →
              r = x ∨ (r ≠ x ∧ holdsUuid conversations h r u)).
    { intros r u H.
      apply holdsUuid_alter in H as [(-> & _) | (Hrx & H)]; [by left | by right]. }
    assert (Hnone : ∀ r, ¬ holdsUuid conversations h r (toLowerCase aci)).
    { intros r (Hin & c & Hc & He).
      pose proof (find_None _ _ _ Hy r c Hin Hc) as Hm.
      assert (matches (toLowerCase aci) c = true); [|congruence].
      apply matches_spec. auto. }
    assert (Hnew : ∀ u,
              holdsUuid conversations
                (alter (updateUuid (toLowerCase aci)) x h) x u →
              u = toLowerCase aci).
    { intros u H.
      apply holdsUuid_alter in H as [(_ & c & Hc & He) | (? & _)]; [|done].
      cbn in He. rewrite toLowerCase_toLowerCase in He. congruence. }
    intros r1 r2 u Hu H1 H2.
    pose proof H1 as H1'. pose proof H2 as H2'.
    apply Hold in H1 as [-> | (Hr1 & H1)], H2 as [-> | (Hr2 & H2)].
    + done.
    + apply Hnew in H1' as ->. by destruct (Hnone r2).
    + apply Hnew in H2' as ->. by destruct (Hnone r1).
    + by apply (HuU r1 r2 u).
Qed.

(** X10. Whatever is observed, merges never give an account identifier
    to a second conversation: when no two conversations of the controller
    hold the same non-empty account identifier, the same is true after
    any sequence of merges. (A merge sets an account identifier only on
    the conversation found for the phone number, and only when [get]
    found none for the identifier.) *)
Theorem mergeAll_keeps_uuid_unique (os : list Observation)
    (h : list ConversationModel) :
  uniqueUuid conversations h →
  uniqueUuid conversations (mergeAll conversations os h).
Proof.
  revert h. induction os as [|o os IH]; intros h Hu; [done|].
  cbn [mergeAll fold_left]. apply IH.
  destruct (merge_heap conversations h o) as [-> | [_ ->]]; [done|].
  by apply mergedHeap_uniqueUuid.
Qed.

End Controller.

Lemma mergeAll_keeps_uuid_unique_witness :
  uniqueUuid [0; 1] (mergeAll [0; 1] [seen; mkObservation "bbbb" "+13215559876"]
                       [alice; bob]).
Proof.
  apply (mergeAll_keeps_uuid_unique [0; 1]
           [seen; mkObservation "bbbb" "+13215559876"] [alice; bob]).
  apply alice_bob_unique.
Defined.

Lemma maybeMergeContacts_ignores_case_witness :
  maybeMergeContacts [0; 1] (Some "+13215559876") (Some "BBBB") (Some "merge")
    [alice; bob]
  = maybeMergeContacts [0; 1] (Some "+13215559876") (Some "bbbb") (Some "merge")
      [alice; bob].
Proof.
  apply (maybeMergeContacts_ignores_case [0; 1] (Some "+13215559876")
           (Some "merge") "BBBB" "bbbb" [alice; bob]); reflexivity.
Defined.

Lemma maybeMergeContacts_touches_only_the_found_witness :
  let result :=
    maybeMergeContacts [0; 1] (Some "+13215559876") (Some "bbbb") (Some "merge")
      [alice; bob; alice] in
  result.2 !! 2 = [alice; bob; alice] !! 2
  ∧ length result.2 = length [alice; bob; alice].
Proof.
  apply (maybeMergeContacts_touches_only_the_found [0; 1] (Some "+13215559876")
           (Some "bbbb") (Some "merge") [alice; bob; alice] 2); done.
Defined.

Lemma lookupOrCreate_answers_for_the_merge_witness :
  lookupOrCreate [0; 1] (Some "+13215559876") (Some "bbbb") [alice; bob]
  = (match (maybeMergeContacts [0; 1] (Some "+13215559876") (Some "bbbb")
              (Some "merge") [alice; bob]).1 with
     | Returned r => Returned (r ≫= λ x, id <$> [alice; bob] !! x)
     | Threw e => Threw e
     end, [alice; bob]).
Proof.
  apply (lookupOrCreate_answers_for_the_merge [0; 1] (Some "+13215559876")
           (Some "bbbb") "merge" [alice; bob]); done.
Defined.

End ConversationsMore.

Module AccountsMore.

Import UuidLookup Accounts.

(** A run of the thunk returns, having made the effects of [steps] and
    then dispatched its one action. *)
Lemma checkForAccount_steps (world : World) (phoneNumber : string) (st : Store) :
  let '(action, es) := steps world phoneNumber (getState st) in
  checkForAccount world phoneNumber st
  = (Returned tt,
     mkStore (reducer (Defined (getState st)) action)
       (effects st ++ es ++ [Dispatched action])).
Proof.
  unfold steps, lookupUuid, checkForAccount, dispatch, perform, await, fromOutcome.
  destruct (server world); cbn [negb]; [|done].
  destruct (knownUuid (conversationUuid world phoneNumber)) as [u|]; run.
  { by rewrite <- app_assoc. }
  case_bool_decide; [done|].
  destruct (getUuidsForE164s world [phoneNumber]) as [found|e]; cbn.
  - destruct (found !! phoneNumber) as [pair|]; cbn.
    + destruct (maybeMergeContacts world pair phoneNumber) as [[c|]|e]; cbn;
        by rewrite <- !app_assoc.
    + by rewrite <- !app_assoc.
  - by rewrite <- !app_assoc.
Qed.

Lemma performed_steps (world : World) (phoneNumber : string) (st : Store) :
  performed world phoneNumber st
  = (steps world phoneNumber (getState st)).2
    ++ [Dispatched (steps world phoneNumber (getState st)).1]
  ∧ (checkForAccount world phoneNumber st).1 = Returned tt
  ∧ getState (checkForAccount world phoneNumber st).2
    = reducer (Defined (getState st)) (steps world phoneNumber (getState st)).1
  ∧ effects (checkForAccount world phoneNumber st).2
    = effects st ++ performed world phoneNumber st.
Proof.
  unfold performed. pose proof (checkForAccount_steps world phoneNumber st) as H.
  destruct (steps world phoneNumber (getState st)) as [action es].
  rewrite H. cbn. by rewrite drop_app_length.
Qed.

Lemma lookups_app (es1 es2 : list Effect) :
  lookups (es1 ++ es2) = (lookups es1 + lookups es2)%nat.
Proof. unfold lookups. by rewrite omap_app, length_app. Qed.

Lemma lookupUuid_logs (world : World) (phoneNumber : string) :
  (lookupUuid world phoneNumber).2 = []
  ∨ ∃ message, (lookupUuid world phoneNumber).2 = [LogError message].
Proof.
  unfold lookupUuid.
  destruct (getUuidsForE164s world [phoneNumber]) as [found|e]; [|eauto].
  destruct (found !! phoneNumber) as [maybePair|]; [|eauto].
  destruct (maybeMergeContacts world maybePair phoneNumber) as [[c|]|e]; eauto.
Qed.

Lemma steps_lookups (world : World) (phoneNumber : string) (state : AccountsStateType) :
  let es := (steps world phoneNumber state).2
            ++ [Dispatched (steps world phoneNumber state).1] in
  lookedUp es = mustLookUp world phoneNumber state
  ∧ lookups es = (if mustLookUp world phoneNumber state then 1 else 0)%nat
  ∧ dispatched es = [(steps world phoneNumber state).1]
  ∧ (mustLookUp world phoneNumber state = true →
     ∃ u, (steps world phoneNumber state).1 = AccountsUpdate phoneNumber u).
Proof.
  unfold steps, mustLookUp.
  destruct (server world); cbn [negb andb]; [|done].
  destruct (knownUuid (conversationUuid world phoneNumber)) as [u|]; [done|].
  destruct (accounts state !! phoneNumber) as [v|] eqn:Hv; cbn.
  - done.
  - destruct (lookupUuid_logs world phoneNumber) as [-> | [message ->]];
      cbn; eauto 6.
Qed.

Lemma reducer_keeps_keys (state : AccountsStateType) (action : Action) (q : string) :
  is_Some (accounts state !! q) →
  is_Some (accounts (reducer (Defined state) action) !! q).
Proof.
  intros Hq. destruct action as [|p u]; [done|]. cbn.
  destruct (decide (p = q)) as [->|Hne].
  - rewrite lookup_insert_eq. by eexists.
  - by rewrite lookup_insert_ne.
Qed.

(** X11. The reducer keeps, for every phone number, the account
    identifier of the last update for it: after any list of actions the
    entry of a phone number is that of its last update in the list, [undefined]
    included, and it is the entry it had before when the list holds no
    update for it. No action removes a key. *)
Theorem reduce_keeps_the_last_update (state : AccountsStateType)
    (actions : list Action) (phoneNumber : string) :
  accounts (reduce state actions) !! phoneNumber
  = match lastUpdate phoneNumber actions with
    | Some uuid => Some uuid
    | None => accounts state !! phoneNumber
    end.
Proof.
  revert state. induction actions as [|a actions IH]; intros state; [done|].
  unfold reduce. cbn [fold_left lastUpdate]. fold (reduce (reducer (Defined state) a) actions).
  rewrite IH. destruct (lastUpdate phoneNumber actions) as [u|]; [done|].
  destruct a as [|q u]; [done|]. cbn. case_bool_decide as Hq.
  - subst q. by rewrite lookup_insert_eq.
  - by rewrite lookup_insert_ne.
Qed.

(** X12. A run of [checkForAccount] performs the remote lookup exactly
    when there is a server, the conversation controller knows no
    conversation with an account identifier for the phone number, and the
    phone number is not yet a key of the accounts; and it performs it at
    most once. *)
Theorem checkForAccount_looks_up_exactly_when (world : World)
    (phoneNumber : string) (st : Store) :
  lookedUp (performed world phoneNumber st)
  = (server world
     && bool_decide (knownUuid (conversationUuid world phoneNumber) = None)
     && bool_decide (accounts (getState st) !! phoneNumber = None))
  ∧ (lookups (performed world phoneNumber st) ≤ 1)%nat.
Proof.
  destruct (performed_steps world phoneNumber st) as (-> & _).
  destruct (steps_lookups world phoneNumber (getState st)) as (Hl & Hn & _).
  cbn zeta in Hl, Hn. rewrite Hl, Hn. split; [done|].
  destruct (mustLookUp _ _ _); lia.
Qed.

(** X13. Every run of [checkForAccount] returns without throwing and
    dispatches exactly one action, a no-op or an update of the phone
    number it was called with; the accounts after the run are the
    reducer's result for that action. *)
Theorem checkForAccount_dispatches_once (world : World)
    (phoneNumber : string) (st : Store) :
  let after := checkForAccount world phoneNumber st in
  after.1 = Returned tt
  ∧ ∃ action,
      dispatched (performed world phoneNumber st) = [action]
      ∧ (action = NOOP ∨ ∃ uuid, action = AccountsUpdate phoneNumber uuid)
      ∧ getState after.2 = reducer (Defined (getState st)) action.
Proof.
  cbn zeta.
  destruct (performed_steps world phoneNumber st) as (-> & Hret & Hstate & _).
  destruct (steps_lookups world phoneNumber (getState st)) as (_ & _ & Hd & _).
  split; [done|]. exists (steps world phoneNumber (getState st)).1.
  split; [done|]. split; [|done].
  unfold steps. destruct (server world); cbn [negb]; [|by left].
  destruct (knownUuid _); [right; eauto|].
  case_bool_decide; [by left | right; eauto].
Qed.

(** X14. A run of [checkForAccount] for a phone number leaves the entry
    of every other phone number as it was, and removes no key of the
    accounts. *)
Theorem checkForAccount_keeps_other_entries (world : World)
    (phoneNumber : string) (st : Store) :
  let after := (checkForAccount world phoneNumber st).2 in
  (∀ q, q ≠ phoneNumber →
        accounts (getState after) !! q = accounts (getState st) !! q)
  ∧ (∀ q, is_Some (accounts (getState st) !! q) →
          is_Some (accounts (getState after) !! q)).
Proof.
  cbn zeta.
  destruct (performed_steps world phoneNumber st) as (_ & _ & -> & _).
  split; [|intros q; apply reducer_keeps_keys].
  intros q Hq. unfold steps. destruct (server world); cbn [negb]; [|done].
  destruct (knownUuid _); cbn; [by rewrite lookup_insert_ne|].
  case_bool_decide; cbn; [done | by rewrite lookup_insert_ne].
Qed.

Lemma checkRepeatedly_known (worlds : list World) (phoneNumber : string) (st : Store) :
  is_Some (accounts (getState st) !! phoneNumber) →
  (checkRepeatedly worlds phoneNumber st).1 = Returned tt
  ∧ lookups (effects (checkRepeatedly worlds phoneNumber st).2)
    = lookups (effects st).
Proof.
  revert st. induction worlds as [|w ws IH]; intros st Hkey; [done|].
  cbn [checkRepeatedly]. cbv [mbind M_mbind M_bind].
  destruct (performed_steps w phoneNumber st) as (Hp & Hret & Hstate & Heff).
  destruct (steps_lookups w phoneNumber (getState st)) as (_ & Hn & _).
  cbn zeta in Hn. rewrite <- Hp in Hn.
  destruct (checkForAccount w phoneNumber st) as [o st1].
  cbn [fst snd] in *. subst o.
  destruct (IH st1) as [Hret1 Hl1].
  { rewrite Hstate. by apply reducer_keeps_keys. }
  split; [done|]. rewrite Hl1, Heff, lookups_app, Hn.
  unfold mustLookUp. destruct Hkey as [v Hv]. rewrite Hv.
  rewrite (bool_decide_eq_false_2 (Some v = None)) by done.
  rewrite andb_false_r. lia.
Qed.

(** A run of the thunk that nothing interrupts is its first part followed,
    when that part is suspended at the [await], by its second part. *)
Lemma checkForAccount_phases (world : World) (phoneNumber : string) (st : Store) :
  checkForAccount world phoneNumber st
  = (suspended ← checkForAccount_begin world phoneNumber;
     if suspended : bool then checkForAccount_resume world phoneNumber
     else mret tt) st.
Proof.
  unfold checkForAccount, checkForAccount_begin, checkForAccount_resume,
    dispatch, perform, await, fromOutcome.
  destruct (server world); cbn [negb]; [|done].
  destruct (knownUuid (conversationUuid world phoneNumber)) as [u|]; run; [done|].
  case_bool_decide; [done|].
  destruct (getUuidsForE164s world [phoneNumber]) as [found|e]; cbn; [|done].
  destruct (found !! phoneNumber) as [pair|]; cbn; [|done].
  by destruct (maybeMergeContacts world pair phoneNumber) as [[c|]|e].
Qed.

(** Runs that overlap are not covered by the bound of one lookup: a second
    run that starts while the first awaits its lookup finds the phone
    number not yet among the accounts, and looks it up as well. *)
Example overlapping_runs_both_look_up :
  let st := mkStore getEmptyState [] in
  lookups (effects (checkOverlapping online "+13215559876" st).2) = 2%nat
  ∧ lookups (effects (checkRepeatedly [online; online] "+13215559876" st).2) = 1%nat.
Proof. by vm_compute. Qed.

(** X15. When the runs of [checkForAccount] for a phone number do not
    overlap, each having returned before the next one starts, then
    however many they are, and whatever the server and the conversation
    controller answer from one run to the next, the remote lookup for
    that number is performed at most once; it is not performed at all
    once the number is a key of the accounts; and no run throws. *)
Theorem checkRepeatedly_looks_up_at_most_once (worlds : list World)
    (phoneNumber : string) (st : Store) :
  let after := checkRepeatedly worlds phoneNumber st in
  after.1 = Returned tt
  ∧ (lookups (effects after.2) ≤ lookups (effects st) + 1)%nat
  ∧ (is_Some (accounts (getState st) !! phoneNumber) →
     lookups (effects after.2) = lookups (effects st)).
Proof.
  cbn zeta. split; [|split].
  2: { revert st. induction worlds as [|w ws IH]; intros st; [cbn; lia|].
       cbn [checkRepeatedly]. cbv [mbind M_mbind M_bind].
       destruct (performed_steps w phoneNumber st) as (Hp & Hret & Hstate & Heff).
       destruct (steps_lookups w phoneNumber (getState st)) as (_ & Hn & _ & Hup).
       cbn zeta in Hn. rewrite <- Hp in Hn.
       destruct (checkForAccount w phoneNumber st) as [o st1] eqn:Hrun.
       cbn [fst snd] in *. subst o.
       destruct (mustLookUp w phoneNumber (getState st)) eqn:Hm.
       - destruct (Hup eq_refl) as [u Hu].
         destruct (checkRepeatedly_known ws phoneNumber st1) as [_ ->].
         { rewrite Hstate, Hu. cbn. rewrite lookup_insert_eq. by eexists. }
         rewrite Heff, lookups_app, Hn. lia.
       - specialize (IH st1). rewrite Heff, lookups_app, Hn in IH. lia. }
  - revert st. induction worlds as [|w ws IH]; intros st; [done|].
    cbn [checkRepeatedly]. cbv [mbind M_mbind M_bind].
    destruct (performed_steps w phoneNumber st) as (_ & Hret & _).
    destruct (checkForAccount w phoneNumber st) as [o st1].
    cbn [fst] in Hret. subst o. apply IH.
  - intros Hkey. by apply checkRepeatedly_known.
Qed.

End AccountsMore.
